(** * A shallow embedding of the DCF valuation engine

    The development follows [advanced_dcf_calculator.py]: the capital-cost
    functions, the cash-flow functions, the valuation functions, the
    sensitivity grid and the highlight built inside
    [create_visualizations], the calculation block of [main], the console
    input functions and [print_summary].

    Numbers.  A Python [float] is modelled by the rational number it
    denotes and sums, products and quotients are exact ([Q] with its
    setoid equality [==]): rounding and signed zeros are outside the
    model, and so is a sum, product or quotient that leaves the range of
    a double (Python then goes on with an infinity, without raising).
    What the model does keep is everything the source decides by a
    comparison or a guard ([is None] tests, truthiness, [==], [<=], [>],
    the builtin [min]/[max]) and everything that makes a call raise: a
    Python true division by zero raises [ZeroDivisionError] whereas a
    NumPy one yields [inf] or [nan]; a power [x ** n] of Python floats
    raises [OverflowError] when its value rounds to an infinity, and is
    [0.0] when its value rounds to zero (the power of NumPy scalars in
    the grid raises nothing and is kept exact); [float(text)] may give
    [nan] or an infinity.  Where rounding itself decides a property,
    [calculate_wacc] is also given on IEEE 754 binary64 numbers. *)

From Stdlib Require Import QArith Qabs Qminmax Qpower Qfield Lqa ZArith Lia String.
From Stdlib Require Import Floats.
From stdpp Require Import base list.

Set Warnings "-inexact-float".

Open Scope Q_scope.

(** ** Python values and builtins *)

Module Py.

(** The exceptions the modelled code can raise. *)
Inductive exn : Set :=
| ZeroDivisionError
| IndexError
| OverflowError.

(** The outcome of evaluating a Python expression or call. *)
Inductive result (A : Type) : Type :=
| Ok (a : A)
| Raise (e : exn).
Arguments Ok {A} a.
Arguments Raise {A} e.

#[global] Instance result_ret : MRet result := fun _ a => Ok a.
#[global] Instance result_bind : MBind result := fun _ _ f m =>
  match m with
  | Ok a => f a
  | Raise e => Raise e
  end.

(** [x < y] as the interpreter decides it. *)
Definition Qlt_bool (x y : Q) : bool := negb (Qle_bool y x).

(** [x / y] on floats. *)
Definition div (x y : Q) : result Q :=
  if Qeq_bool y 0 then Raise ZeroDivisionError else Ok (x / y).

(** [x / y] on binary64 numbers. *)
Definition div_binary64 (x y : float) : result float :=
  if (y =? 0)%float then Raise ZeroDivisionError else Ok (x / y)%float.

(** The range of a double.  A real number whose magnitude is at least
    [overflow_threshold], 2^1024 - 2^970, rounds to an infinity; one
    whose magnitude is at most [underflow_threshold], 2^-1075, rounds to
    zero. *)
Definition overflow_threshold : Q := inject_Z (2 ^ 1024 - 2 ^ 970).

Definition underflow_threshold : Q := 1 # (2 ^ 1075).

(** The real numbers that round to a double which is finite and not 0. *)
Definition finite_nonzero (y : Q) : Prop :=
  underflow_threshold < Qabs y /\ Qabs y < overflow_threshold.

(** [x ** n] for a float [x] and an integer [n].  A zero base with a
    negative exponent raises [ZeroDivisionError]; a result that rounds
    to an infinity raises [OverflowError]; a result that rounds to zero
    is [0.0], without any error. *)
Definition pow (x : Q) (n : Z) : result Q :=
  if Qeq_bool x 0 && (n <? 0)%Z then Raise ZeroDivisionError
  else
    let y := x ^ n in
    if Qle_bool overflow_threshold (Qabs y) then Raise OverflowError
    else if Qle_bool (Qabs y) underflow_threshold then Ok 0
    else Ok y.

(** [min(a, b)]: the first argument unless the second is smaller. *)
Definition min (a b : Q) : Q := if Qlt_bool b a then b else a.

(** [max(a, b)]: the first argument unless the second is larger. *)
Definition max (a b : Q) : Q := if Qlt_bool a b then b else a.

(** [range(lo, hi)]. *)
Definition range (lo hi : Z) : list Z :=
  (fun k => (lo + Z.of_nat k)%Z) <$> seq 0 (Z.to_nat (hi - lo)).

(** [enumerate(l, start)]. *)
Fixpoint enumerate {A : Type} (l : list A) (start : Z) : list (Z * A) :=
  match l with
  | [] => []
  | x :: l' => (start, x) :: enumerate l' (start + 1)
  end.

(** [l[-1]]. *)
Definition last_item {A : Type} (l : list A) : result A :=
  match last l with
  | Some x => Ok x
  | None => Raise IndexError
  end.

(** [len(l)] as a Python integer. *)
Definition len {A : Type} (l : list A) : Z := Z.of_nat (length l).

End Py.

Import Py.

(** ** CapitalCostEngine *)

(** [calculate_tax_rate(ebit, tax_expense)] *)
Definition calculate_tax_rate (ebit : Q) (tax_expense : option Q) : result Q :=
  match tax_expense with
  | None => Ok 0.21
  | Some tax =>
      if Qle_bool ebit 0 then Ok 0.21
      else
        tax_rate ← Py.div tax ebit;
        Ok (Py.max 0 (Py.min tax_rate 0.5))
  end.

(** [calculate_cost_of_debt(total_debt, interest_expense, tax_rate)] *)
Definition calculate_cost_of_debt
    (total_debt : Q) (interest_expense : option Q) (tax_rate : Q) : result Q :=
  if Qeq_bool total_debt 0 then Ok 0
  else
    pretax_cost ←
      match interest_expense with
      | None => Ok 0.04
      | Some interest =>
          if Qeq_bool interest 0 then Ok 0.04 else Py.div interest total_debt
      end;
    Ok (pretax_cost * (1 - tax_rate)).

(** [calculate_cost_of_equity(risk_free_rate, beta, equity_risk_premium)] *)
Definition calculate_cost_of_equity
    (risk_free_rate beta equity_risk_premium : Q) : Q :=
  risk_free_rate + beta * equity_risk_premium.

(** [calculate_wacc(cost_of_equity, cost_of_debt, market_cap, total_debt)] *)
Definition calculate_wacc
    (cost_of_equity cost_of_debt market_cap total_debt : Q) : result Q :=
  let total_value := market_cap + total_debt in
  if Qeq_bool total_value 0 then Ok cost_of_equity
  else
    weight_equity ← Py.div market_cap total_value;
    weight_debt ← Py.div total_debt total_value;
    Ok (weight_equity * cost_of_equity + weight_debt * cost_of_debt).

(** [calculate_wacc] once more, on IEEE 754 binary64 numbers: the same
    statements, each operation rounded to the nearest double as the
    interpreter does.  This is the function to evaluate when a property
    depends on rounding. *)
Definition calculate_wacc_binary64
    (cost_of_equity cost_of_debt market_cap total_debt : float) : result float :=
  let total_value := (market_cap + total_debt)%float in
  if (total_value =? 0)%float then Ok cost_of_equity
  else
    weight_equity ← Py.div_binary64 market_cap total_value;
    weight_debt ← Py.div_binary64 total_debt total_value;
    Ok (weight_equity * cost_of_equity + weight_debt * cost_of_debt)%float.

(** ** CashFlowEngine *)

(** [calculate_fcff(ebit, tax_rate, depreciation, capex, change_in_wc)].
    [depreciation if depreciation else 0] is a truthiness test: both
    [None] and a zero amount select the [0]. *)
Definition calculate_fcff
    (ebit tax_rate : Q) (depreciation : option Q) (capex change_in_wc : Q) : Q :=
  let nopat := ebit * (1 - tax_rate) in
  let depreciation :=
    match depreciation with
    | Some d => if Qeq_bool d 0 then 0 else d
    | None => 0
    end in
  nopat + depreciation - capex - change_in_wc.

(** The body of the [for year in range(1, forecast_years + 1)] loop of
    [forecast_fcff], threaded over the list built so far.  The power is
    the one operation of the loop that can raise. *)
Fixpoint forecast_loop
    (base_fcff short_term_growth : Q) (years : list Z) (forecasted : list Q)
    : result (list Q) :=
  match years with
  | [] => Ok forecasted
  | year :: years' =>
      growth ← Py.pow (1 + short_term_growth) year;
      let fcff := base_fcff * growth in
      forecast_loop base_fcff short_term_growth years' (forecasted ++ [fcff])
  end.

(** [forecast_fcff(base_fcff, forecast_years, short_term_growth=None)].
    The loop appends one amount per year of [range(1, forecast_years + 1)]. *)
Definition forecast_fcff
    (base_fcff : Q) (forecast_years : Z) (short_term_growth : option Q)
    : result (list Q) :=
  let short_term_growth :=
    match short_term_growth with
    | None => 0.05
    | Some g => g
    end in
  forecast_loop base_fcff short_term_growth (Py.range 1 (forecast_years + 1)) [].

(** ** ValuationEngine *)

(** What [calculate_terminal_value] writes on standard output when its
    guard fires. *)
Definition terminal_value_message : string :=
  "Error: WACC must be greater than perpetual growth rate".

(** [calculate_terminal_value(fcff_final, perpetual_growth, wacc)]: the
    lines printed, and the value returned. *)
Definition calculate_terminal_value
    (fcff_final perpetual_growth wacc : Q) : list string * result Q :=
  if Qle_bool wacc perpetual_growth then
    ([terminal_value_message], Ok 0)
  else
    ([], Py.div (fcff_final * (1 + perpetual_growth)) (wacc - perpetual_growth)).

(** The body of the [for year, fcff in enumerate(forecasted_fcff, 1)] loop
    of [calculate_enterprise_value], threaded over the two accumulators. *)
Fixpoint discount_loop
    (wacc : Q) (items : list (Z * Q)) (pv_fcff_list : list Q) (pv_fcff_total : Q)
    : result (list Q * Q) :=
  match items with
  | [] => Ok (pv_fcff_list, pv_fcff_total)
  | (year, fcff) :: items' =>
      discount ← Py.pow (1 + wacc) year;
      pv ← Py.div fcff discount;
      discount_loop wacc items' (pv_fcff_list ++ [pv]) (pv_fcff_total + pv)
  end.

(** [calculate_enterprise_value(forecasted_fcff, terminal_value, wacc)],
    returning [(enterprise_value, pv_fcff_list, pv_terminal)]. *)
Definition calculate_enterprise_value
    (forecasted_fcff : list Q) (terminal_value wacc : Q)
    : result (Q * list Q * Q) :=
  '(pv_fcff_list, pv_fcff_total) ←
    discount_loop wacc (Py.enumerate forecasted_fcff 1) [] 0;
  discount ← Py.pow (1 + wacc) (Py.len forecasted_fcff);
  pv_terminal ← Py.div terminal_value discount;
  let enterprise_value := pv_fcff_total + pv_terminal in
  Ok (enterprise_value, pv_fcff_list, pv_terminal).

(** [calculate_equity_value(enterprise_value, total_debt, cash)] *)
Definition calculate_equity_value (enterprise_value total_debt cash : Q) : Q :=
  enterprise_value - total_debt + cash.

(** [calculate_intrinsic_value_per_share(equity_value, shares_outstanding)] *)
Definition calculate_intrinsic_value_per_share
    (equity_value shares_outstanding : Q) : result Q :=
  if Qeq_bool shares_outstanding 0 then Ok 0
  else Py.div equity_value shares_outstanding.

(** ** NumPy scalars

    The grid of [create_visualizations] is computed on [numpy.float64]
    scalars, whose division never raises: a zero divisor gives an
    infinity or [nan], which then propagate through later operations. *)

Module Np.

Inductive float64 : Type :=
| Fin (q : Q)
| PInf
| NInf
| NaN.

Definition add (a b : float64) : float64 :=
  match a, b with
  | NaN, _ | _, NaN => NaN
  | Fin x, Fin y => Fin (x + y)
  | PInf, NInf | NInf, PInf => NaN
  | PInf, _ | _, PInf => PInf
  | NInf, _ | _, NInf => NInf
  end.

Definition neg (a : float64) : float64 :=
  match a with
  | Fin x => Fin (- x)
  | PInf => NInf
  | NInf => PInf
  | NaN => NaN
  end.

Definition sub (a b : float64) : float64 := add a (neg b).

Definition div (a b : float64) : float64 :=
  match a, b with
  | NaN, _ | _, NaN => NaN
  | Fin x, Fin y =>
      if Qeq_bool y 0 then
        if Qeq_bool x 0 then NaN else if Qlt_bool 0 x then PInf else NInf
      else Fin (x / y)
  | Fin _, _ => Fin 0
  | PInf, Fin y => if Qlt_bool y 0 then NInf else PInf
  | NInf, Fin y => if Qlt_bool y 0 then PInf else NInf
  | _, _ => NaN
  end.

(** The builtin [sum] applied to a list of scalars: a left fold from [0]. *)
Definition sum (l : list float64) : float64 := fold_left add l (Fin 0).

(** [numpy.linspace(start, stop, num)] with the default [endpoint=True]:
    [num] evenly spaced samples [k * step + start]; with more than one
    sample the last one is set to [stop] itself. *)
Definition linspace (start stop : Q) (num : nat) : list Q :=
  let step := (stop - start) / inject_Z (Z.of_nat (num - 1)) in
  let y := (fun k => inject_Z (Z.of_nat k) * step + start) <$> seq 0 num in
  if (1 <? num)%nat then <[(num - 1)%nat := stop]> y else y.

(** [numpy.zeros((rows, cols))]. *)
Definition zeros (rows cols : nat) : list (list float64) :=
  replicate rows (replicate cols (Fin 0)).

(** [m[i, j] = v]. *)
Definition set_item (m : list (list float64)) (i j : nat) (v : float64)
    : list (list float64) :=
  alter (fun row => <[j := v]> row) i m.

(** [m[i, j]]. *)
Definition get_item (m : list (list float64)) (i j : nat) : option float64 :=
  row ← m !! i; row !! j.

End Np.

(** ** SensitivityAnalyzer: the grid block of [create_visualizations] *)

(** The two axes: [wacc_range] and [growth_range]. *)
Definition wacc_range (wacc : Q) : list Q :=
  Np.linspace (wacc * 0.8) (wacc * 1.2) 7.

Definition growth_range (perpetual_growth wacc : Q) : list Q :=
  Np.linspace (perpetual_growth * 0.5)
              (Py.min (perpetual_growth * 1.5) (wacc * 0.9)) 7.

(** The value the loop body assigns to [sensitivity_matrix[i, j]] for the
    axis points [w] and [g]. *)
Definition sensitivity_cell
    (forecasted_fcff : list Q) (total_debt cash shares_outstanding : Q)
    (w g : Q) : result Np.float64 :=
  if Qlt_bool g w then
    fcff_last ← Py.last_item forecasted_fcff;
    let tv_sens := Np.div (Np.Fin (fcff_last * (1 + g))) (Np.Fin (w - g)) in
    let pv_tv_sens :=
      Np.div tv_sens (Np.Fin ((1 + w) ^ Py.len forecasted_fcff)) in
    let pv_fcff_sens :=
      Np.sum ((fun '(idx, fcff) =>
                 Np.div (Np.Fin fcff) (Np.Fin ((1 + w) ^ (idx + 1))))
              <$> Py.enumerate forecasted_fcff 0) in
    let ev_sens := Np.add pv_fcff_sens pv_tv_sens in
    let eq_val_sens := Np.add (Np.sub ev_sens (Np.Fin total_debt)) (Np.Fin cash) in
    Ok (Np.div eq_val_sens (Np.Fin shares_outstanding))
  else Ok Np.NaN.

(** [for j, g in enumerate(growth_range)], from column [j] on. *)
Fixpoint growth_loop
    (cell : Q -> Q -> result Np.float64) (i : nat) (w : Q)
    (j : nat) (gs : list Q) (m : list (list Np.float64))
    : result (list (list Np.float64)) :=
  match gs with
  | [] => Ok m
  | g :: gs' =>
      v ← cell w g;
      growth_loop cell i w (S j) gs' (Np.set_item m i j v)
  end.

(** [for i, w in enumerate(wacc_range)], from row [i] on. *)
Fixpoint wacc_loop
    (cell : Q -> Q -> result Np.float64) (i : nat) (ws gs : list Q)
    (m : list (list Np.float64)) : result (list (list Np.float64)) :=
  match ws with
  | [] => Ok m
  | w :: ws' =>
      m' ← growth_loop cell i w 0 gs m;
      wacc_loop cell (S i) ws' gs m'
  end.

(** The matrix handed to the heat map. *)
Definition sensitivity_matrix
    (forecasted_fcff : list Q) (perpetual_growth wacc : Q)
    (total_debt cash shares_outstanding : Q) : result (list (list Np.float64)) :=
  let ws := wacc_range wacc in
  let gs := growth_range perpetual_growth wacc in
  wacc_loop
    (sensitivity_cell forecasted_fcff total_debt cash shares_outstanding)
    0 ws gs (Np.zeros (length ws) (length gs)).

(** The highlighted cell of the heat map.  [numpy.argmin] returns the
    index of the first occurrence of the minimum; on an empty sequence,
    where NumPy raises [ValueError], the model gives [None]. *)
Fixpoint np_argmin_from
    (best_idx : nat) (best : Q) (idx : nat) (l : list Q) : nat :=
  match l with
  | [] => best_idx
  | x :: l' =>
      if Qlt_bool x best then np_argmin_from idx x (S idx) l'
      else np_argmin_from best_idx best (S idx) l'
  end.

Definition np_argmin (l : list Q) : option nat :=
  match l with
  | [] => None
  | x :: l' => Some (np_argmin_from 0 x 1 l')
  end.

(** [np.argmin(np.abs(wacc_range - wacc))] and
    [np.argmin(np.abs(growth_range - inputs['perpetual_growth']))]. *)
Definition current_wacc_idx (wacc : Q) : option nat :=
  np_argmin ((fun w => Qabs (w - wacc)) <$> wacc_range wacc).

Definition current_growth_idx (perpetual_growth wacc : Q) : option nat :=
  np_argmin ((fun g => Qabs (g - perpetual_growth))
               <$> growth_range perpetual_growth wacc).

(** ** The calculation block of [main] *)

(** The dictionary returned by [get_user_inputs]. *)
Module Inputs.
Record t : Type := make {
  ticker : string;
  risk_free_rate : Q;
  equity_risk_premium : Q;
  forecast_years : Z;
  perpetual_growth : Q;
  short_term_growth : option Q
}.
End Inputs.

(** The dictionary returned by [fetch_company_data]. *)
Module CompanyData.
Record t : Type := make {
  company_name : string;
  beta : Q;
  market_cap : Q;
  shares_outstanding : Q;
  current_price : option Q;
  ebit : Q;
  tax_expense : option Q;
  depreciation : option Q;
  interest_expense : option Q;
  total_debt : Q;
  cash : Q;
  capex : Q;
  change_in_wc : Q
}.
End CompanyData.

(** The local variables of [main] once the calculations are done. *)
Module Valuation.
Record t : Type := make {
  tax_rate : Q;
  cost_of_equity : Q;
  cost_of_debt : Q;
  wacc : Q;
  base_fcff : Q;
  forecasted_fcff : list Q;
  terminal_value : Q;
  enterprise_value : Q;
  pv_fcff_list : list Q;
  pv_terminal : Q;
  equity_value : Q;
  intrinsic_value : Q
}.
End Valuation.

(** A run of statements: what it has printed so far, and its outcome.
    An exception stops the run and keeps what was printed before it. *)
Module Run.

Record t (A : Type) : Type := make { stdout : list string; outcome : result A }.
Arguments make {A} stdout outcome.
Arguments stdout {A} _.
Arguments outcome {A} _.

#[global] Instance run_ret : MRet t := fun _ a => make [] (Ok a).
#[global] Instance run_bind : MBind t := fun _ _ f m =>
  match outcome m with
  | Ok a => make (stdout m ++ stdout (f a)) (outcome (f a))
  | Raise e => make (stdout m) (Raise e)
  end.

(** A call that prints nothing. *)
Definition silent {A : Type} (r : result A) : t A := make [] r.

(** A call that returns what it printed along with its outcome. *)
Definition printing {A : Type} (p : list string * result A) : t A :=
  make (fst p) (snd p).

End Run.

(** Lines 545 to 609 of [main]: from the tax rate to the intrinsic value
    per share.  The figures of [company_data] are taken as Python
    floats, as the signatures of the functions called declare them.
    (Figures read out of a pandas table are [numpy.float64] scalars,
    whose division by zero gives [inf] or [nan] where Python's raises:
    on such figures a [ZeroDivisionError] of the model stands for a
    division by zero, not necessarily for the exception.) *)
Definition main_calculations
    (inputs : Inputs.t) (company_data : CompanyData.t) : Run.t Valuation.t :=
  tax_rate ← Run.silent
    (calculate_tax_rate (CompanyData.ebit company_data)
                        (CompanyData.tax_expense company_data));
  let cost_of_equity :=
    calculate_cost_of_equity (Inputs.risk_free_rate inputs)
                             (CompanyData.beta company_data)
                             (Inputs.equity_risk_premium inputs) in
  cost_of_debt ← Run.silent
    (calculate_cost_of_debt (CompanyData.total_debt company_data)
                            (CompanyData.interest_expense company_data)
                            tax_rate);
  wacc ← Run.silent
    (calculate_wacc cost_of_equity cost_of_debt
                    (CompanyData.market_cap company_data)
                    (CompanyData.total_debt company_data));
  let base_fcff :=
    calculate_fcff (CompanyData.ebit company_data) tax_rate
                   (CompanyData.depreciation company_data)
                   (CompanyData.capex company_data)
                   (CompanyData.change_in_wc company_data) in
  forecasted_fcff ← Run.silent
    (forecast_fcff base_fcff (Inputs.forecast_years inputs)
                   (Inputs.short_term_growth inputs));
  fcff_final ← Run.silent (Py.last_item forecasted_fcff);
  terminal_value ← Run.printing
    (calculate_terminal_value fcff_final (Inputs.perpetual_growth inputs) wacc);
  '(enterprise_value, pv_fcff_list, pv_terminal) ← Run.silent
    (calculate_enterprise_value forecasted_fcff terminal_value wacc);
  let equity_value :=
    calculate_equity_value enterprise_value
                           (CompanyData.total_debt company_data)
                           (CompanyData.cash company_data) in
  intrinsic_value ← Run.silent
    (calculate_intrinsic_value_per_share
       equity_value (CompanyData.shares_outstanding company_data));
  mret (Valuation.make tax_rate cost_of_equity cost_of_debt wacc base_fcff
          forecasted_fcff terminal_value enterprise_value pv_fcff_list
          pv_terminal equity_value intrinsic_value).

(** ** Console input: [validate_positive_number],
    [validate_positive_integer] and [get_user_inputs]

    These functions read lines from standard input, print, and leave the
    program through [sys.exit].  A computation is a function of the
    world (the lines still to be read, the text written so far) that
    returns, exits with a status, or hits the end of the input, where
    [input] raises [EOFError].  A fourth outcome marks the edge of the
    model of numbers: [NotFinite] says that the function has accepted
    [nan] or an infinity and carries on with it, which the rational
    numbers cannot follow. *)

Module Io.

Record world : Type := World { stdin : list string; stdout : list string }.

Inductive outcome (A : Type) : Type :=
| Returned (a : A)
| Exited (status : Z)
| EndOfInput
| NotFinite.
Arguments Returned {A} a.
Arguments Exited {A} status.
Arguments EndOfInput {A}.
Arguments NotFinite {A}.

Record t (A : Type) : Type := Make { run : world -> outcome A * world }.
Arguments Make {A} run.
Arguments run {A} _ _.

#[global] Instance io_ret : MRet t := fun _ a => Make (fun w => (Returned a, w)).
#[global] Instance io_bind : MBind t := fun _ _ f m =>
  Make (fun w =>
          match run m w with
          | (Returned a, w') => run (f a) w'
          | (Exited status, w') => (Exited status, w')
          | (EndOfInput, w') => (EndOfInput, w')
          | (NotFinite, w') => (NotFinite, w')
          end).

(** The line feed that [print] appends. *)
Definition newline : string := String (Ascii.ascii_of_nat 10) EmptyString.

(** [print(text)]. *)
Definition print (text : string) : t unit :=
  Make (fun w =>
          (Returned tt, World (stdin w) (stdout w ++ [(text ++ newline)%string]))).

(** [input(prompt)]: writes the prompt, then reads one line. *)
Definition input (prompt : string) : t string :=
  Make (fun w =>
          let w' := World (stdin w) (stdout w ++ [prompt]) in
          match stdin w with
          | [] => (EndOfInput, w')
          | line :: rest => (Returned line, World rest (stdout w'))
          end).

(** [sys.exit(status)]. *)
Definition exit {A : Type} (status : Z) : t A :=
  Make (fun w => (Exited status, w)).

(** The function holds [nan] or an infinity from here on. *)
Definition not_finite {A : Type} : t A :=
  Make (fun w => (NotFinite, w)).

End Io.

(** What [float(s)] gives when it is not a finite number: [nan], an
    infinity of either sign, or a [ValueError] with its message. *)
Inductive not_a_number : Type :=
| Nan
| Infinity (negative : bool)
| ValueError (message : string).

(** The builtins of the interpreter that the console functions call:
    [float(s)], which gives a finite number, [nan] or an infinity, or
    raises [ValueError]; [int(s)], which gives an integer or raises
    [ValueError] with a message; the string methods [strip], [upper]
    and [lower]; and, for the f-strings, [format(x, spec)] on a float
    and [str(n)] on an integer. *)
Record builtins : Type := Builtins {
  py_float : string -> not_a_number + Q;
  py_int : string -> string + Z;
  str_strip : string -> string;
  str_upper : string -> string;
  str_lower : string -> string;
  py_format : string -> Q -> string;
  py_str : Z -> string
}.

(** [text * n] on strings. *)
Fixpoint str_repeat (text : string) (n : nat) : string :=
  match n with
  | O => EmptyString
  | S n' => (text ++ str_repeat text n')%string
  end.

(** The [except ValueError as e] handler shared by the two validators. *)
Definition invalid_input {A : Type} (name message : string) : Io.t A :=
  Io.print ("Error: Invalid input for " ++ name ++ ". " ++ message)%string;;
  Io.exit 1.

(** [validate_positive_number(value, name)].  The test [num < 0] is
    false for [nan] and for the positive infinity, which are returned
    like any other number; it is true for the negative infinity. *)
Definition validate_positive_number
    (b : builtins) (value name : string) : Io.t Q :=
  match py_float b value with
  | inr num =>
      if Qlt_bool num 0 then
        invalid_input name (name ++ " must be non-negative")%string
      else mret num
  | inl Nan => Io.not_finite
  | inl (Infinity negative) =>
      if negative then
        invalid_input name (name ++ " must be non-negative")%string
      else Io.not_finite
  | inl (ValueError message) => invalid_input name message
  end.

(** [validate_positive_integer(value, name)] *)
Definition validate_positive_integer
    (b : builtins) (value name : string) : Io.t Z :=
  match py_int b value with
  | inr num =>
      if (num <=? 0)%Z then
        invalid_input name (name ++ " must be greater than 0")%string
      else mret num
  | inl message => invalid_input name message
  end.

(** [get_user_inputs()] *)
Definition get_user_inputs (b : builtins) : Io.t Inputs.t :=
  Io.print (Io.newline ++ str_repeat "=" 60)%string;;
  Io.print "DCF CALCULATOR - User Inputs";;
  Io.print (str_repeat "=" 60 ++ Io.newline)%string;;
  line ← Io.input "Stock Ticker (e.g., MSFT, NESN.SW, 7203.T): ";
  let ticker := str_upper b (str_strip b line) in
  (if String.eqb ticker "" then
     Io.print "Error: Ticker cannot be empty";; Io.exit 1
   else mret tt);;
  line ← Io.input "Country Risk-Free Rate (%) [e.g., 4.2]: ";
  risk_free_rate ←
    validate_positive_number b (str_strip b line) "Risk-Free Rate";
  line ← Io.input "Country Equity Risk Premium (%) [e.g., 5.0]: ";
  equity_risk_premium ←
    validate_positive_number b (str_strip b line) "Equity Risk Premium";
  line ← Io.input "Forecast Period (Years) [e.g., 5]: ";
  forecast_years ←
    validate_positive_integer b (str_strip b line) "Forecast Period";
  line ← Io.input "Perpetual Growth Rate (%) [e.g., 2.5]: ";
  perpetual_growth ←
    validate_positive_number b (str_strip b line) "Perpetual Growth Rate";
  line ← Io.input
    (Io.newline
     ++ "Use custom short-term FCFF growth rate? (y/n, default: n): ")%string;
  let use_custom_growth := str_lower b (str_strip b line) in
  short_term_growth ←
    (if String.eqb use_custom_growth "y" then
       line ← Io.input "Short-term FCFF Growth Rate (%) [e.g., 8.0]: ";
       growth ←
         validate_positive_number b (str_strip b line) "Short-term Growth Rate";
       mret (Some growth)
     else mret None);
  mret (Inputs.make
          ticker
          (risk_free_rate / 100)
          (equity_risk_premium / 100)
          forecast_years
          (perpetual_growth / 100)
          (match short_term_growth with
           | Some growth =>
               if Qeq_bool growth 0 then None else Some (growth / 100)
           | None => None
           end)).

(** ** Console output: [format_currency] and [print_summary] *)




(** A small interpretation of the builtins, enough to run the console
    functions on a few answers: it reads the numerals listed, [nan] and
    the infinities, and rejects every other text, leaves strings as they
    are, and writes every number as [#]. *)
Definition sample_builtins : builtins :=
  Builtins
    (fun text =>
       if String.eqb text "4.2" then inr 4.2
       else if String.eqb text "5.0" then inr 5.0
       else if String.eqb text "2.5" then inr 2.5
       else if String.eqb text "0" then inr 0
       else if String.eqb text "-1" then inr (-1)
       else if String.eqb text "nan" then inl Nan
       else if String.eqb text "inf" then inl (Infinity false)
       else if String.eqb text "-inf" then inl (Infinity true)
       else inl (ValueError "could not convert string to float"))
    (fun text =>
       if String.eqb text "5" then inr 5%Z
       else if String.eqb text "0" then inr 0%Z
       else inl "invalid literal for int() with base 10"%string)
    (fun text => text)
    (fun text => text)
    (fun text => text)
    (fun spec x => "#"%string)
    (fun n => "#"%string).

(** ** Reference quantities used to state the properties *)

(** The present values of a series whose first cash flow falls in year
    [start], and the sum of a list of amounts. *)
Fixpoint discounted (wacc : Q) (start : Z) (fs : list Q) : list Q :=
  match fs with
  | [] => []
  | f :: fs' => f / (1 + wacc) ^ start :: discounted wacc (start + 1) fs'
  end.

Definition total_of (l : list Q) : Q := fold_right Qplus 0 l.

(** * Properties *)

(** ** Reflection of the interpreter's comparisons *)

Lemma Qlt_bool_true (x y : Q) : Qlt_bool x y = true <-> x < y.
Proof.
  unfold Qlt_bool. rewrite negb_true_iff.
  split.
  - intros H. apply Qnot_le_lt. intros Hle.
    apply Qle_bool_iff in Hle. congruence.
  - intros H. destruct (Qle_bool y x) eqn:E; [|reflexivity].
    apply Qle_bool_iff in E. exfalso. apply (Qlt_not_le _ _ H E).
Qed.

Lemma Qlt_bool_false (x y : Q) : Qlt_bool x y = false <-> y <= x.
Proof.
  unfold Qlt_bool. rewrite negb_false_iff. apply Qle_bool_iff.
Qed.

Lemma Qle_bool_false (x y : Q) : Qle_bool x y = false <-> y < x.
Proof.
  rewrite <- Qlt_bool_true. unfold Qlt_bool.
  destruct (Qle_bool x y); simpl; intuition congruence.
Qed.

Lemma Qeq_bool_false (x y : Q) : Qeq_bool x y = false <-> ~ x == y.
Proof.
  split.
  - apply Qeq_bool_neq.
  - intros H. destruct (Qeq_bool x y) eqn:E; [|reflexivity].
    apply Qeq_bool_iff in E. contradiction.
Qed.

(** Case analysis on every comparison the goal branches on, leaving the
    outcome of each test as a proposition in the context. *)
Ltac by_tests :=
  repeat match goal with
    | |- context [Qle_bool ?x ?y] =>
        let E := fresh "Hle" in
        destruct (Qle_bool x y) eqn:E;
        [apply Qle_bool_iff in E | apply Qle_bool_false in E]
    | |- context [Qlt_bool ?x ?y] =>
        let E := fresh "Hlt" in
        destruct (Qlt_bool x y) eqn:E;
        [apply Qlt_bool_true in E | apply Qlt_bool_false in E]
    | |- context [Qeq_bool ?x ?y] =>
        let E := fresh "Heq" in
        destruct (Qeq_bool x y) eqn:E;
        [apply Qeq_bool_iff in E | apply Qeq_bool_false in E]
    end.

(** Closed comparisons of rationals are settled by evaluation. *)
Ltac by_evaluation := vm_compute; first [reflexivity | discriminate].

Lemma div_defined (x y : Q) : ~ y == 0 -> Py.div x y = Ok (x / y).
Proof.
  intros H. unfold Py.div. apply Qeq_bool_false in H. now rewrite H.
Qed.

Lemma div_raises (x y : Q) : y == 0 -> Py.div x y = Raise ZeroDivisionError.
Proof.
  intros H. unfold Py.div. apply Qeq_bool_iff in H. now rewrite H.
Qed.

(** ** The power and the range of a double *)

Lemma underflow_threshold_pos : 0 < Py.underflow_threshold.
Proof. by_evaluation. Qed.

Lemma underflow_below_overflow : Py.underflow_threshold < Py.overflow_threshold.
Proof. by_evaluation. Qed.

Lemma finite_nonzero_not_0 (y : Q) : Py.finite_nonzero y -> ~ y == 0.
Proof.
  intros [H _] Hz. rewrite Hz in H.
  pose proof underflow_threshold_pos as Hpos.
  change (Qabs 0) with 0 in H. lra.
Qed.

Lemma finite_nonzero_1 : Py.finite_nonzero 1.
Proof. split; by_evaluation. Qed.

(** A power is in exactly one of three ranges, and the range decides
    what [**] does. *)
Lemma pow_cases (x : Q) (n : Z) :
  (0 <= n)%Z ->
  (Py.finite_nonzero (x ^ n) /\ Py.pow x n = Ok (x ^ n)) \/
  (Qabs (x ^ n) <= Py.underflow_threshold /\ Py.pow x n = Ok 0) \/
  (Py.overflow_threshold <= Qabs (x ^ n) /\ Py.pow x n = Raise OverflowError).
Proof.
  intros Hn. unfold Py.pow, Py.finite_nonzero.
  assert (Hb : (n <? 0)%Z = false) by (apply Z.ltb_ge; exact Hn).
  rewrite Hb, andb_false_r. cbv zeta.
  destruct (Qle_bool Py.overflow_threshold (Qabs (x ^ n))) eqn:Hhigh.
  - apply Qle_bool_iff in Hhigh. right. right. split; [exact Hhigh|reflexivity].
  - apply Qle_bool_false in Hhigh.
    destruct (Qle_bool (Qabs (x ^ n)) Py.underflow_threshold) eqn:Hlow.
    + apply Qle_bool_iff in Hlow. right. left. split; [exact Hlow|reflexivity].
    + apply Qle_bool_false in Hlow. left. repeat split; assumption.
Qed.

Lemma pow_finite_nonzero (x : Q) (n : Z) :
  (0 <= n)%Z -> Py.finite_nonzero (x ^ n) -> Py.pow x n = Ok (x ^ n).
Proof.
  intros Hn [Hlow Hhigh].
  destruct (pow_cases x n Hn) as [[_ H]|[[H _]|[H _]]]; [exact H|lra..].
Qed.

Lemma pow_underflow (x : Q) (n : Z) :
  (0 <= n)%Z -> Qabs (x ^ n) <= Py.underflow_threshold -> Py.pow x n = Ok 0.
Proof.
  intros Hn Hlow. pose proof underflow_below_overflow as Hgap.
  destruct (pow_cases x n Hn) as [[[H _] _]|[[_ H]|[H _]]]; [lra|exact H|lra].
Qed.

Lemma pow_overflow (x : Q) (n : Z) :
  (0 <= n)%Z -> Py.overflow_threshold <= Qabs (x ^ n) ->
  Py.pow x n = Raise OverflowError.
Proof.
  intros Hn Hhigh. pose proof underflow_below_overflow as Hgap.
  destruct (pow_cases x n Hn) as [[[_ H] _]|[[H _]|[_ H]]]; [lra|lra|exact H].
Qed.

(** A power of a number between 1 and 2, with an exponent of at most
    1000, is far inside the range of a double. *)
Lemma power_in_range (x : Q) (n : Z) :
  1 <= x -> x <= 2 -> (0 <= n <= 1000)%Z -> Py.finite_nonzero (x ^ n).
Proof.
  intros Hlo Hhi Hn.
  assert (Hone : 1 <= x ^ n) by (apply Qpower_1_le; [exact Hlo|lia]).
  assert (Hpos : 0 < x ^ n) by lra.
  assert (Htwo : x ^ n <= 2 ^ n).
  { assert (Hratio : 1 <= (2 / x) ^ n).
    { apply Qpower_1_le; [|lia]. apply Qle_shift_div_l; lra. }
    rewrite Qdiv_power in Hratio.
    apply (Qmult_le_compat_r _ _ (x ^ n)) in Hratio; [|lra].
    assert (Hback : 2 ^ n / x ^ n * x ^ n == 2 ^ n) by (field; lra).
    lra. }
  assert (Htop : 2 ^ n <= 2 ^ 1000).
  { apply Qpower_le_compat_l; [lia|lra]. }
  assert (Hmax : 2 ^ 1000 < Py.overflow_threshold) by by_evaluation.
  assert (Hmin : Py.underflow_threshold < 1) by by_evaluation.
  unfold Py.finite_nonzero. rewrite Qabs_pos by lra. split; lra.
Qed.

Lemma min_is_Qmin (a b : Q) : Py.min a b == Qmin a b.
Proof.
  unfold Py.min. by_tests.
  - symmetry. apply Q.min_r. now apply Qlt_le_weak.
  - symmetry. now apply Q.min_l.
Qed.

Lemma max_is_Qmax (a b : Q) : Py.max a b == Qmax a b.
Proof.
  unfold Py.max. by_tests.
  - symmetry. apply Q.max_r. now apply Qlt_le_weak.
  - symmetry. now apply Q.max_l.
Qed.

(** ** CapitalCostEngine *)

(** C4: [calculate_tax_rate] returns exactly 0.21 when the tax expense is
    absent or EBIT is not positive; otherwise it returns
    [tax_expense / ebit] clamped to [[0, 0.5]]; hence with a tax expense
    present and a nonzero EBIT the rate always lies in [[0, 0.5]]. *)
Theorem calculate_tax_rate_spec (ebit : Q) (tax_expense : option Q) :
  (tax_expense = None \/ ebit <= 0 ->
   calculate_tax_rate ebit tax_expense = Ok 0.21) /\
  (forall tax, tax_expense = Some tax -> 0 < ebit ->
   exists rate, calculate_tax_rate ebit tax_expense = Ok rate /\
                rate == Qmax 0 (Qmin (tax / ebit) 0.5)) /\
  (forall tax, tax_expense = Some tax -> ~ ebit == 0 ->
   exists rate, calculate_tax_rate ebit tax_expense = Ok rate /\
                0 <= rate <= 0.5).
Proof.
  assert (Hclamp : forall x, 0 <= Py.max 0 (Py.min x 0.5) <= 0.5).
  { intros x. unfold Py.max, Py.min. by_tests; split; lra. }
  split; [|split].
  - intros [-> | Hle]; [reflexivity|].
    unfold calculate_tax_rate. destruct tax_expense; [|reflexivity].
    apply Qle_bool_iff in Hle. now rewrite Hle.
  - intros tax -> Hpos. unfold calculate_tax_rate.
    apply Qle_bool_false in Hpos as Hb. rewrite Hb.
    rewrite div_defined by lra. simpl.
    eexists; split; [reflexivity|].
    rewrite max_is_Qmax.
    apply Q.max_compat; [reflexivity|apply min_is_Qmin].
  - intros tax -> Hnz. unfold calculate_tax_rate.
    destruct (Qle_bool ebit 0) eqn:Hb.
    + eexists; split; [reflexivity|]. split; lra.
    + apply Qle_bool_false in Hb. rewrite div_defined by lra. simpl.
      eexists; split; [reflexivity|apply Hclamp].
Qed.

Lemma calculate_tax_rate_spec_witness :
  calculate_tax_rate (-5) (Some 2) = Ok 0.21 /\
  (exists rate, calculate_tax_rate 100 (Some 30) = Ok rate /\
                rate == Qmax 0 (Qmin (30 / 100) 0.5)) /\
  (exists rate, calculate_tax_rate 100 (Some 80) = Ok rate /\
                0 <= rate <= 0.5).
Proof.
  split; [|split].
  - apply (calculate_tax_rate_spec (-5) (Some 2)). right. by_evaluation.
  - apply (calculate_tax_rate_spec 100 (Some 30)); reflexivity.
  - destruct (calculate_tax_rate_spec 100 (Some 80)) as (_ & _ & H).
    apply (H 80); [reflexivity|]. by_evaluation.
Defined.

(** C5: [calculate_cost_of_debt] returns 0 whenever the total debt is 0,
    whatever the interest expense; with a nonzero total debt it returns
    [pretax * (1 - tax_rate)], where [pretax] is
    [interest_expense / total_debt] for an interest expense that is
    present and nonzero, and 0.04 otherwise. *)
Theorem calculate_cost_of_debt_spec
    (total_debt : Q) (interest_expense : option Q) (tax_rate : Q) :
  (total_debt == 0 ->
   calculate_cost_of_debt total_debt interest_expense tax_rate = Ok 0) /\
  (~ total_debt == 0 ->
   (forall interest, interest_expense = Some interest -> ~ interest == 0 ->
    calculate_cost_of_debt total_debt interest_expense tax_rate
    = Ok (interest / total_debt * (1 - tax_rate))) /\
   (interest_expense = None \/
    (exists interest, interest_expense = Some interest /\ interest == 0) ->
    calculate_cost_of_debt total_debt interest_expense tax_rate
    = Ok (0.04 * (1 - tax_rate)))).
Proof.
  unfold calculate_cost_of_debt. split.
  - intros H. apply Qeq_bool_iff in H. now rewrite H.
  - intros Hdebt. apply Qeq_bool_false in Hdebt as Hb. rewrite Hb. split.
    + intros interest -> Hnz. apply Qeq_bool_false in Hnz. rewrite Hnz.
      now rewrite div_defined.
    + intros [-> | (interest & -> & Hz)]; [reflexivity|].
      apply Qeq_bool_iff in Hz. now rewrite Hz.
Qed.

Lemma calculate_cost_of_debt_spec_witness :
  calculate_cost_of_debt 0 (Some 7) 0.21 = Ok 0 /\
  calculate_cost_of_debt 200 (Some 10) 0.21 = Ok (10 / 200 * (1 - 0.21)) /\
  calculate_cost_of_debt 200 None 0.21 = Ok (0.04 * (1 - 0.21)).
Proof.
  split; [|split].
  - apply (calculate_cost_of_debt_spec 0 (Some 7) 0.21). reflexivity.
  - destruct (calculate_cost_of_debt_spec 200 (Some 10) 0.21) as [_ H].
    apply H; [by_evaluation | reflexivity | by_evaluation].
  - destruct (calculate_cost_of_debt_spec 200 None 0.21) as [_ H].
    apply H; [by_evaluation | now left].
Defined.

(** C6: [calculate_wacc] returns the cost of equity, without dividing,
    when [market_cap + total_debt] is 0, and the market-value weighted
    average of the two costs otherwise. *)
Theorem calculate_wacc_spec
    (cost_of_equity cost_of_debt market_cap total_debt : Q) :
  (market_cap + total_debt == 0 ->
   calculate_wacc cost_of_equity cost_of_debt market_cap total_debt
   = Ok cost_of_equity) /\
  (~ market_cap + total_debt == 0 ->
   calculate_wacc cost_of_equity cost_of_debt market_cap total_debt
   = Ok (market_cap / (market_cap + total_debt) * cost_of_equity
         + total_debt / (market_cap + total_debt) * cost_of_debt)).
Proof.
  unfold calculate_wacc. split.
  - intros H. apply Qeq_bool_iff in H. cbv zeta. now rewrite H.
  - intros H. apply Qeq_bool_false in H as Hb. cbv zeta. rewrite Hb.
    now rewrite !div_defined.
Qed.

Lemma calculate_wacc_spec_witness :
  calculate_wacc 0.09 0.03 0 0 = Ok 0.09 /\
  calculate_wacc 0.09 0.03 300 100
  = Ok (300 / (300 + 100) * 0.09 + 100 / (300 + 100) * 0.03).
Proof.
  split.
  - apply (calculate_wacc_spec 0.09 0.03 0 0). reflexivity.
  - apply (calculate_wacc_spec 0.09 0.03 300 100). by_evaluation.
Defined.

(** C10, in exact arithmetic: with non-negative market capitalisation
    and debt whose sum is positive, [calculate_wacc] returns the convex
    combination [weight_equity * cost_of_equity + weight_debt *
    cost_of_debt] whose weights [market_cap / (market_cap + total_debt)]
    and [total_debt / (market_cap + total_debt)] are non-negative and add
    up to 1; hence the result lies between the minimum and the maximum
    of the two costs, and is the cost of equity when the total debt is
    0. *)
Theorem calculate_wacc_convex
    (cost_of_equity cost_of_debt market_cap total_debt : Q) :
  0 <= market_cap -> 0 <= total_debt -> 0 < market_cap + total_debt ->
  exists weight_equity weight_debt wacc,
    calculate_wacc cost_of_equity cost_of_debt market_cap total_debt = Ok wacc /\
    weight_equity == market_cap / (market_cap + total_debt) /\
    weight_debt == total_debt / (market_cap + total_debt) /\
    0 <= weight_equity /\ 0 <= weight_debt /\
    weight_equity + weight_debt == 1 /\
    wacc == weight_equity * cost_of_equity + weight_debt * cost_of_debt /\
    Qmin cost_of_equity cost_of_debt <= wacc /\
    wacc <= Qmax cost_of_equity cost_of_debt /\
    (total_debt == 0 -> wacc == cost_of_equity).
Proof.
  intros Hcap Hdebt Hpos.
  exists (market_cap / (market_cap + total_debt)),
         (total_debt / (market_cap + total_debt)),
         (market_cap / (market_cap + total_debt) * cost_of_equity
          + total_debt / (market_cap + total_debt) * cost_of_debt).
  split.
  { unfold calculate_wacc. cbv zeta.
    assert (Hb : Qeq_bool (market_cap + total_debt) 0 = false)
      by (apply Qeq_bool_false; lra).
    rewrite Hb. rewrite !div_defined by lra. reflexivity. }
  split; [reflexivity|]. split; [reflexivity|].
  assert (Hwe : 0 <= market_cap / (market_cap + total_debt))
    by (apply Qle_shift_div_l; lra).
  assert (Hwd : 0 <= total_debt / (market_cap + total_debt))
    by (apply Qle_shift_div_l; lra).
  assert (Hone : market_cap / (market_cap + total_debt)
                 + total_debt / (market_cap + total_debt) == 1)
    by (field; lra).
  split; [exact Hwe|]. split; [exact Hwd|]. split; [exact Hone|].
  split; [reflexivity|].
  assert (Hexact : total_debt == 0 ->
             market_cap / (market_cap + total_debt) * cost_of_equity
             + total_debt / (market_cap + total_debt) * cost_of_debt
             == cost_of_equity).
  { intros Hz. rewrite Hz. field. lra. }
  remember (market_cap / (market_cap + total_debt)) as weight_equity eqn:Ee.
  remember (total_debt / (market_cap + total_debt)) as weight_debt eqn:Ed.
  clear Ee Ed.
  split; [|split]; [| |exact Hexact].
  - pose proof (Q.le_min_l cost_of_equity cost_of_debt).
    pose proof (Q.le_min_r cost_of_equity cost_of_debt).
    remember (Qmin cost_of_equity cost_of_debt) as bound.
    assert (0 <= weight_equity * (cost_of_equity - bound))
      by (apply Qmult_le_0_compat; lra).
    assert (0 <= weight_debt * (cost_of_debt - bound))
      by (apply Qmult_le_0_compat; lra).
    assert (bound == (weight_equity + weight_debt) * bound)
      by (rewrite Hone; ring).
    lra.
  - pose proof (Q.le_max_l cost_of_equity cost_of_debt).
    pose proof (Q.le_max_r cost_of_equity cost_of_debt).
    remember (Qmax cost_of_equity cost_of_debt) as bound.
    assert (0 <= weight_equity * (bound - cost_of_equity))
      by (apply Qmult_le_0_compat; lra).
    assert (0 <= weight_debt * (bound - cost_of_debt))
      by (apply Qmult_le_0_compat; lra).
    assert (bound == (weight_equity + weight_debt) * bound)
      by (rewrite Hone; ring).
    lra.
Qed.

Lemma calculate_wacc_convex_witness :
  exists weight_equity weight_debt wacc,
    calculate_wacc 0.09 0.03 300 100 = Ok wacc /\
    weight_equity == 300 / (300 + 100) /\
    weight_debt == 100 / (300 + 100) /\
    0 <= weight_equity /\ 0 <= weight_debt /\
    weight_equity + weight_debt == 1 /\
    wacc == weight_equity * 0.09 + weight_debt * 0.03 /\
    Qmin 0.09 0.03 <= wacc /\ wacc <= Qmax 0.09 0.03 /\
    (100 == 0 -> wacc == 0.09).
Proof.
  apply (calculate_wacc_convex 0.09 0.03 300 100); by_evaluation.
Defined.

(** C10, as stated, fails on doubles.  With both costs at 0.08, a market
    capitalisation of 1e9 and a debt of 2e9, the weights round to
    0.3333333333333333 and 0.6666666666666666 and the result is
    0.07999999999999999, below the minimum 0.08 of the two costs; with a
    market capitalisation and a debt of 1e308 their sum is an infinity,
    both weights are 0 and the result is 0. *)
Lemma calculate_wacc_below_minimum :
  calculate_wacc_binary64 0.08 0.08 1e9 2e9 = Ok 0.07999999999999999%float /\
  (0.07999999999999999 <? 0.08)%float = true /\
  calculate_wacc_binary64 0.08 0.08 1e308 1e308 = Ok 0%float /\
  (0 <? 0.08)%float = true.
Proof. repeat split; vm_compute; reflexivity. Qed.

(** ** CashFlowEngine *)

(** C8: [calculate_fcff] returns
    [ebit * (1 - tax_rate) + depreciation - capex - change_in_wc], an
    absent depreciation counting as 0; with EBIT 100, tax rate 0.21,
    depreciation 10, capex 15 and no change in working capital it
    returns 74. *)
Theorem calculate_fcff_spec
    (ebit tax_rate : Q) (depreciation : option Q) (capex change_in_wc : Q) :
  calculate_fcff ebit tax_rate depreciation capex change_in_wc
  == ebit * (1 - tax_rate)
     + match depreciation with Some d => d | None => 0 end
     - capex - change_in_wc
  /\ calculate_fcff 100 0.21 (Some 10) 15 0 == 74.0.
Proof.
  split; [|reflexivity].
  unfold calculate_fcff. destruct depreciation as [d|]; [|reflexivity].
  by_tests; [rewrite Heq|]; reflexivity.
Qed.

Lemma range_length (lo hi : Z) : length (Py.range lo hi) = Z.to_nat (hi - lo).
Proof. unfold Py.range. now rewrite length_fmap, length_seq. Qed.

Lemma range_lookup (lo hi : Z) (k : nat) :
  (k < Z.to_nat (hi - lo))%nat ->
  Py.range lo hi !! k = Some (lo + Z.of_nat k)%Z.
Proof.
  intros Hk. unfold Py.range.
  rewrite list_lookup_fmap, lookup_seq_lt by exact Hk. reflexivity.
Qed.

Lemma range_elem (lo hi year : Z) :
  year ∈ Py.range lo hi <-> (lo <= year < hi)%Z.
Proof.
  unfold Py.range. rewrite list_elem_of_fmap. split.
  - intros (k & -> & Hk). apply elem_of_seq in Hk. lia.
  - intros H. exists (Z.to_nat (year - lo)). split; [lia|].
    apply elem_of_seq. lia.
Qed.

(** The forecast loop when every power is a finite non-zero double: one
    amount is appended per year. *)
Lemma forecast_loop_finite (base_fcff g : Q) (years : list Z) :
  forall forecasted : list Q,
  (forall year, year ∈ years ->
     (0 <= year)%Z /\ Py.finite_nonzero ((1 + g) ^ year)) ->
  forecast_loop base_fcff g years forecasted
  = Ok (forecasted ++ ((fun year => base_fcff * (1 + g) ^ year) <$> years)).
Proof.
  induction years as [|year years IH]; intros forecasted Hyears.
  - cbn. now rewrite app_nil_r.
  - cbn [forecast_loop fmap list_fmap].
    destruct (Hyears year) as [Hyear Hfinite]; [apply list_elem_of_here|].
    rewrite (pow_finite_nonzero _ _ Hyear Hfinite).
    unfold mbind, result_bind. cbv zeta.
    rewrite IH, <- app_assoc; [reflexivity|].
    intros y Hy. apply Hyears. now apply list_elem_of_further.
Qed.

(** Whatever the forecast loop returns was built from the powers, year
    by year. *)
Lemma forecast_loop_inversion (base_fcff g : Q) (years : list Z) :
  forall forecasted result : list Q,
  forecast_loop base_fcff g years forecasted = Ok result ->
  exists growths,
    Forall2 (fun year growth => Py.pow (1 + g) year = Ok growth) years growths /\
    result = forecasted ++ (Qmult base_fcff <$> growths).
Proof.
  induction years as [|year years IH]; intros forecasted result H.
  - cbn in H. injection H as <-. exists []. split; [constructor|].
    cbn. now rewrite app_nil_r.
  - cbn [forecast_loop] in H.
    destruct (Py.pow (1 + g) year) as [growth|e] eqn:Hpow; [|discriminate H].
    unfold mbind, result_bind in H. cbv zeta in H.
    apply IH in H as (growths & Hall & ->).
    exists (growth :: growths). split; [now constructor|].
    cbn. now rewrite <- app_assoc.
Qed.

(** The forecast loop raises nothing but [OverflowError], and only when
    a power leaves the range of a double. *)
Lemma forecast_loop_raises (base_fcff g : Q) (years : list Z) :
  forall (forecasted : list Q) (e : exn),
  (forall year, year ∈ years -> (0 <= year)%Z) ->
  forecast_loop base_fcff g years forecasted = Raise e ->
  e = OverflowError /\
  exists year,
    year ∈ years /\ Py.overflow_threshold <= Qabs ((1 + g) ^ year).
Proof.
  induction years as [|year years IH]; intros forecasted e Hyears H.
  - discriminate H.
  - cbn [forecast_loop] in H.
    assert (Hyear : (0 <= year)%Z) by (apply Hyears, list_elem_of_here).
    destruct (pow_cases (1 + g) year Hyear)
      as [[_ Hpow]|[[_ Hpow]|[Hhigh Hpow]]];
      rewrite Hpow in H; unfold mbind, result_bind in H; cbv zeta in H.
    + apply IH in H as (-> & y & Hy & Hhigh).
      * split; [reflexivity|]. exists y.
        split; [now apply list_elem_of_further|exact Hhigh].
      * intros y Hy. apply Hyears. now apply list_elem_of_further.
    + apply IH in H as (-> & y & Hy & Hhigh).
      * split; [reflexivity|]. exists y.
        split; [now apply list_elem_of_further|exact Hhigh].
      * intros y Hy. apply Hyears. now apply list_elem_of_further.
    + injection H as <-. split; [reflexivity|]. exists year.
      split; [apply list_elem_of_here|exact Hhigh].
Qed.

(** A power that leaves the range stops the forecast loop. *)
Lemma forecast_loop_overflow (base_fcff g : Q) (years : list Z) (year : Z) :
  forall forecasted : list Q,
  (forall y, y ∈ years -> (0 <= y)%Z) ->
  year ∈ years -> Py.overflow_threshold <= Qabs ((1 + g) ^ year) ->
  forecast_loop base_fcff g years forecasted = Raise OverflowError.
Proof.
  intros forecasted Hyears Hyear Hhigh.
  destruct (forecast_loop base_fcff g years forecasted) as [result|e] eqn:H.
  - apply forecast_loop_inversion in H as (growths & Hall & _).
    apply list_elem_of_lookup in Hyear as [k Hk].
    destruct (Forall2_lookup_l _ _ _ _ _ Hall Hk) as (growth & _ & Hpow).
    rewrite pow_overflow in Hpow; [discriminate Hpow| |exact Hhigh].
    apply Hyears. now apply list_elem_of_lookup_2 in Hk.
  - apply forecast_loop_raises in H as [-> _]; [reflexivity|exact Hyears].
Qed.

Lemma forecast_years_nonneg (forecast_years year : Z) :
  year ∈ Py.range 1 (forecast_years + 1) -> (0 <= year)%Z.
Proof. intros H. apply range_elem in H. lia. Qed.

(** What [forecast_fcff] returns when every power is a finite non-zero
    double. *)
Lemma forecast_fcff_finite
    (base_fcff : Q) (forecast_years : Z) (short_term_growth : option Q) :
  (forall i : Z, (1 <= i <= forecast_years)%Z ->
     Py.finite_nonzero ((1 + default 0.05 short_term_growth) ^ i)) ->
  forecast_fcff base_fcff forecast_years short_term_growth
  = Ok ((fun year => base_fcff * (1 + default 0.05 short_term_growth) ^ year)
          <$> Py.range 1 (forecast_years + 1)).
Proof.
  intros Hfinite. unfold forecast_fcff.
  change (match short_term_growth with None => 0.05 | Some g => g end)
    with (default 0.05 short_term_growth).
  cbv zeta. rewrite forecast_loop_finite; [reflexivity|].
  intros year Hyear. apply range_elem in Hyear.
  split; [lia|]. apply Hfinite. lia.
Qed.

(** Whatever [forecast_fcff] returns has one amount per year, each the
    base amount times the power that [**] gave for that year. *)
Lemma forecast_fcff_inversion
    (base_fcff : Q) (forecast_years : Z) (short_term_growth : option Q)
    (forecasted : list Q) :
  forecast_fcff base_fcff forecast_years short_term_growth = Ok forecasted ->
  length forecasted = Z.to_nat forecast_years /\
  forall (i : nat) (x : Q),
    forecasted !! i = Some x ->
    exists growth,
      Py.pow (1 + default 0.05 short_term_growth) (1 + Z.of_nat i) = Ok growth /\
      x = base_fcff * growth.
Proof.
  unfold forecast_fcff.
  change (match short_term_growth with None => 0.05 | Some g => g end)
    with (default 0.05 short_term_growth).
  cbv zeta. intros H.
  apply forecast_loop_inversion in H as (growths & Hall & ->).
  rewrite app_nil_l, length_fmap.
  assert (Hlen : length growths = Z.to_nat forecast_years).
  { rewrite <- (Forall2_length _ _ _ Hall), range_length. f_equal. lia. }
  split; [exact Hlen|].
  intros i x Hx. rewrite list_lookup_fmap in Hx.
  destruct (growths !! i) as [growth|] eqn:Hgrowth; [|discriminate Hx].
  injection Hx as <-. exists growth. split; [|reflexivity].
  destruct (Forall2_lookup_r _ _ _ _ _ Hall Hgrowth) as (year & Hyear & Hpow).
  assert (Hi : (i < Z.to_nat (forecast_years + 1 - 1))%nat).
  { apply lookup_lt_Some in Hyear. now rewrite range_length in Hyear. }
  rewrite (range_lookup _ _ _ Hi) in Hyear. injection Hyear as <-.
  exact Hpow.
Qed.

Lemma forecast_fcff_empty
    (base_fcff : Q) (forecast_years : Z) (short_term_growth : option Q) :
  (forecast_years <= 0)%Z ->
  forecast_fcff base_fcff forecast_years short_term_growth = Ok [].
Proof.
  intros H. unfold forecast_fcff, Py.range.
  replace (Z.to_nat (forecast_years + 1 - 1)) with 0%nat by lia.
  reflexivity.
Qed.

(** A power beyond the range of a double makes [forecast_fcff] raise. *)
Lemma forecast_fcff_overflow
    (base_fcff : Q) (forecast_years : Z) (short_term_growth : option Q) :
  (exists i : Z,
     (1 <= i <= forecast_years)%Z /\
     Py.overflow_threshold
     <= Qabs ((1 + default 0.05 short_term_growth) ^ i)) ->
  forecast_fcff base_fcff forecast_years short_term_growth
  = Raise OverflowError.
Proof.
  intros (i & Hi & Hhigh). unfold forecast_fcff.
  change (match short_term_growth with None => 0.05 | Some g => g end)
    with (default 0.05 short_term_growth).
  cbv zeta. apply (forecast_loop_overflow _ _ _ i).
  - intros y. apply forecast_years_nonneg.
  - apply range_elem. lia.
  - exact Hhigh.
Qed.

(** [forecast_fcff] raises nothing but [OverflowError]. *)
Lemma forecast_fcff_raises
    (base_fcff : Q) (forecast_years : Z) (short_term_growth : option Q)
    (e : exn) :
  forecast_fcff base_fcff forecast_years short_term_growth = Raise e ->
  e = OverflowError.
Proof.
  unfold forecast_fcff. intros H.
  apply forecast_loop_raises in H as [-> _]; [reflexivity|].
  intros y. apply forecast_years_nonneg.
Qed.

(** C7, with the range of a double taken into account: for
    [forecast_years >= 1], when every power [(1 + g) ^ i] with [i] from
    1 to [forecast_years] is a finite non-zero double, [forecast_fcff]
    returns a list of exactly [forecast_years] amounts whose entry for
    year [i] (position [i - 1]) is [base_fcff * (1 + g) ^ i], where [g]
    is the growth override, or 0.05 when none is supplied; when one of
    these powers rounds to an infinity it raises [OverflowError] and
    returns no list. *)
Theorem forecast_fcff_spec
    (base_fcff : Q) (forecast_years : Z) (short_term_growth : option Q) :
  (1 <= forecast_years)%Z ->
  ((forall i : Z, (1 <= i <= forecast_years)%Z ->
      Py.finite_nonzero ((1 + default 0.05 short_term_growth) ^ i)) ->
   exists forecasted,
     forecast_fcff base_fcff forecast_years short_term_growth = Ok forecasted /\
     length forecasted = Z.to_nat forecast_years /\
     forall i : Z, (1 <= i <= forecast_years)%Z ->
       forecasted !! Z.to_nat (i - 1)
       = Some (base_fcff * (1 + default 0.05 short_term_growth) ^ i)) /\
  ((exists i : Z,
      (1 <= i <= forecast_years)%Z /\
      Py.overflow_threshold
      <= Qabs ((1 + default 0.05 short_term_growth) ^ i)) ->
   forecast_fcff base_fcff forecast_years short_term_growth
   = Raise OverflowError).
Proof.
  intros Hyears. split.
  - intros Hfinite. eexists. split; [now apply forecast_fcff_finite|].
    split.
    + rewrite length_fmap, range_length. f_equal. lia.
    + intros i Hi. rewrite list_lookup_fmap, range_lookup by lia.
      simpl. do 3 f_equal. lia.
  - apply forecast_fcff_overflow.
Qed.

Lemma forecast_fcff_spec_witness :
  (exists forecasted,
     forecast_fcff 74.0 3 None = Ok forecasted /\
     length forecasted = Z.to_nat 3 /\
     forall i : Z, (1 <= i <= 3)%Z ->
       forecasted !! Z.to_nat (i - 1)
       = Some (74.0 * (1 + default 0.05 None) ^ i)) /\
  forecast_fcff 1 309 (Some 9) = Raise OverflowError.
Proof.
  split.
  - apply (proj1 (forecast_fcff_spec 74.0 3 None ltac:(lia))).
    intros i Hi. apply power_in_range; [by_evaluation|by_evaluation|lia].
  - apply (proj2 (forecast_fcff_spec 1 309 (Some 9) ltac:(lia))).
    exists 309%Z. split; [lia|by_evaluation].
Defined.

(** C7, as stated, fails: a growth rate of 900% over 309 years asks for
    [10.0 ** 309], which is beyond the largest double; [forecast_fcff]
    raises [OverflowError] and returns no list. *)
Lemma forecast_fcff_overflows :
  (1 <= 309)%Z /\
  forecast_fcff 1 309 (Some 9) = Raise OverflowError /\
  ~ exists forecasted,
      forecast_fcff 1 309 (Some 9) = Ok forecasted /\
      length forecasted = Z.to_nat 309.
Proof.
  assert (H : forecast_fcff 1 309 (Some 9) = Raise OverflowError)
    by (vm_compute; reflexivity).
  split; [lia|]. split; [exact H|].
  intros (forecasted & Hok & _). rewrite H in Hok. discriminate Hok.
Qed.

(** The scenario of the forecast: 74.0 grown at 5% over three years. *)
Example forecast_fcff_scenario :
  exists forecasted,
    forecast_fcff 74.0 3 (Some 0.05) = Ok forecasted /\
    Forall2 Qeq forecasted [77.7; 81.585; 85.66425].
Proof. eexists. split; [vm_compute; reflexivity|]. repeat constructor. Qed.

(** ** ValuationEngine *)

(** C1, as the code has it: when [wacc <= perpetual_growth],
    [calculate_terminal_value] prints its error message and returns the
    number 0, raising nothing; when [wacc > perpetual_growth] it prints
    nothing and returns
    [fcff_final * (1 + perpetual_growth) / (wacc - perpetual_growth)]. *)
Theorem calculate_terminal_value_spec (fcff_final perpetual_growth wacc : Q) :
  (wacc <= perpetual_growth ->
   calculate_terminal_value fcff_final perpetual_growth wacc
   = ([terminal_value_message], Ok 0)) /\
  (perpetual_growth < wacc ->
   calculate_terminal_value fcff_final perpetual_growth wacc
   = ([], Ok (fcff_final * (1 + perpetual_growth) / (wacc - perpetual_growth)))).
Proof.
  unfold calculate_terminal_value. split.
  - intros H. apply Qle_bool_iff in H. now rewrite H.
  - intros H. apply Qle_bool_false in H as Hb. rewrite Hb.
    rewrite div_defined by lra. reflexivity.
Qed.

Lemma calculate_terminal_value_spec_witness :
  calculate_terminal_value 85.66425 0.03 0.025
  = ([terminal_value_message], Ok 0) /\
  calculate_terminal_value 85.66425 0.025 0.09
  = ([], Ok (85.66425 * (1 + 0.025) / (0.09 - 0.025))).
Proof.
  split.
  - apply (calculate_terminal_value_spec 85.66425 0.03 0.025). by_evaluation.
  - apply (calculate_terminal_value_spec 85.66425 0.025 0.09). by_evaluation.
Defined.

(** C1, as stated, fails: with [wacc = 0.025] below
    [perpetual_growth = 0.03] the function returns the number 0 instead
    of raising. *)
Lemma calculate_terminal_value_returns_zero :
  snd (calculate_terminal_value 85.66425 0.03 0.025) = Ok 0 /\
  ~ (0.025 <= 0.03 ->
     exists e, snd (calculate_terminal_value 85.66425 0.03 0.025) = Raise e).
Proof.
  split; [reflexivity|].
  intros H. destruct H as [e He]; [by_evaluation|]. discriminate He.
Qed.

Lemma discounted_length (wacc : Q) (fs : list Q) (start : Z) :
  length (discounted wacc start fs) = length fs.
Proof.
  revert start. induction fs as [|f fs IH]; intros start; simpl; auto.
Qed.

Lemma discounted_lookup (wacc : Q) (fs : list Q) (start : Z) (i : nat) (f : Q) :
  fs !! i = Some f ->
  discounted wacc start fs !! i = Some (f / (1 + wacc) ^ (start + Z.of_nat i)).
Proof.
  revert start i. induction fs as [|f0 fs IH]; intros start i Hi.
  - discriminate Hi.
  - destruct i as [|i]; simpl in *.
    + injection Hi as ->. now rewrite Z.add_0_r.
    + rewrite (IH _ _ Hi). do 3 f_equal. lia.
Qed.

(** The discounting loop, by the range of its discount factors.  Either
    every factor is a finite non-zero double, and the loop appends the
    present values in order and adds them to the total; or the loop
    stops at the first factor that is not: with [ZeroDivisionError] when
    that factor rounds to zero, with [OverflowError] when it rounds to an
    infinity. *)
Lemma discount_loop_outcome (wacc : Q) (fs : list Q) :
  forall (start : Z) (pv_fcff_list : list Q) (pv_fcff_total : Q),
  (0 <= start)%Z ->
  ((forall i : Z, (start <= i < start + Z.of_nat (length fs))%Z ->
      Py.finite_nonzero ((1 + wacc) ^ i)) /\
   exists total,
     discount_loop wacc (Py.enumerate fs start) pv_fcff_list pv_fcff_total
     = Ok (pv_fcff_list ++ discounted wacc start fs, total) /\
     total == pv_fcff_total + total_of (discounted wacc start fs)) \/
  (exists i : Z,
     (start <= i < start + Z.of_nat (length fs))%Z /\
     (forall j : Z, (start <= j < i)%Z -> Py.finite_nonzero ((1 + wacc) ^ j)) /\
     ((Qabs ((1 + wacc) ^ i) <= Py.underflow_threshold /\
       discount_loop wacc (Py.enumerate fs start) pv_fcff_list pv_fcff_total
       = Raise ZeroDivisionError) \/
      (Py.overflow_threshold <= Qabs ((1 + wacc) ^ i) /\
       discount_loop wacc (Py.enumerate fs start) pv_fcff_list pv_fcff_total
       = Raise OverflowError))).
Proof.
  induction fs as [|f fs IH]; intros start pvs total Hstart.
  - left. split; [intros i Hi; cbn in Hi; lia|].
    exists total. cbn. rewrite app_nil_r. split; [reflexivity|].
    unfold total_of. simpl. lra.
  - cbn [length].
    destruct (pow_cases (1 + wacc) start Hstart)
      as [[Hfinite Hpow]|[[Hlow Hpow]|[Hhigh Hpow]]].
    + assert (Hstep :
                discount_loop wacc (Py.enumerate (f :: fs) start) pvs total
                = discount_loop wacc (Py.enumerate fs (start + 1))
                    (pvs ++ [f / (1 + wacc) ^ start])
                    (total + f / (1 + wacc) ^ start)).
      { cbn [Py.enumerate discount_loop]. rewrite Hpow.
        unfold mbind, result_bind.
        rewrite div_defined by now apply finite_nonzero_not_0.
        reflexivity. }
      rewrite Hstep.
      destruct (IH (start + 1)%Z (pvs ++ [f / (1 + wacc) ^ start])
                   (total + f / (1 + wacc) ^ start) ltac:(lia))
        as [[Hall (total' & Hloop & Htotal)]
           |(i & Hi & Hbefore & Hstop)].
      * left. split.
        { intros i Hi. destruct (Z.eq_dec i start) as [->|Hne];
            [exact Hfinite|apply Hall; lia]. }
        exists total'. rewrite Hloop, <- app_assoc. split; [reflexivity|].
        rewrite Htotal. unfold total_of. simpl. lra.
      * right. exists i. split; [lia|]. split; [|exact Hstop].
        intros j Hj. destruct (Z.eq_dec j start) as [->|Hne];
          [exact Hfinite|apply Hbefore; lia].
    + assert (Hstep :
                discount_loop wacc (Py.enumerate (f :: fs) start) pvs total
                = Raise ZeroDivisionError).
      { cbn [Py.enumerate discount_loop]. rewrite Hpow.
        unfold mbind, result_bind. now rewrite div_raises. }
      rewrite Hstep.
      right. exists start. split; [lia|]. split; [intros j Hj; lia|].
      left. split; [exact Hlow|reflexivity].
    + assert (Hstep :
                discount_loop wacc (Py.enumerate (f :: fs) start) pvs total
                = Raise OverflowError).
      { cbn [Py.enumerate discount_loop]. now rewrite Hpow. }
      rewrite Hstep.
      right. exists start. split; [lia|]. split; [intros j Hj; lia|].
      right. split; [exact Hhigh|reflexivity].
Qed.

(** The same for the whole of [calculate_enterprise_value]: the discount
    factor of the terminal value is that of the last forecast year. *)
Lemma enterprise_value_outcome (fs : list Q) (terminal_value wacc : Q) :
  ((forall i : Z, (1 <= i <= Z.of_nat (length fs))%Z ->
      Py.finite_nonzero ((1 + wacc) ^ i)) /\
   exists enterprise_value,
     calculate_enterprise_value fs terminal_value wacc
     = Ok (enterprise_value, discounted wacc 1 fs,
           terminal_value / (1 + wacc) ^ Z.of_nat (length fs)) /\
     enterprise_value
     == total_of (discounted wacc 1 fs)
        + terminal_value / (1 + wacc) ^ Z.of_nat (length fs)) \/
  (exists i : Z,
     (1 <= i <= Z.of_nat (length fs))%Z /\
     (forall j : Z, (1 <= j < i)%Z -> Py.finite_nonzero ((1 + wacc) ^ j)) /\
     ((Qabs ((1 + wacc) ^ i) <= Py.underflow_threshold /\
       calculate_enterprise_value fs terminal_value wacc
       = Raise ZeroDivisionError) \/
      (Py.overflow_threshold <= Qabs ((1 + wacc) ^ i) /\
       calculate_enterprise_value fs terminal_value wacc
       = Raise OverflowError))).
Proof.
  destruct (discount_loop_outcome wacc fs 1 [] 0 ltac:(lia))
    as [[Hall (total & Hloop & Htotal)]|(i & Hi & Hbefore & Hstop)].
  - left. split; [intros i Hi; apply Hall; lia|].
    assert (Hlast : Py.finite_nonzero ((1 + wacc) ^ Z.of_nat (length fs))).
    { destruct fs as [|f fs]; [exact finite_nonzero_1|].
      apply Hall. cbn [length]. lia. }
    exists (total + terminal_value / (1 + wacc) ^ Z.of_nat (length fs)).
    split; [|rewrite Htotal; lra].
    unfold calculate_enterprise_value, Py.len. rewrite Hloop.
    rewrite pow_finite_nonzero by (lia || exact Hlast).
    unfold mbind, result_bind.
    rewrite div_defined by now apply finite_nonzero_not_0.
    reflexivity.
  - right. exists i. split; [lia|]. split; [exact Hbefore|].
    unfold calculate_enterprise_value.
    destruct Hstop as [[Hlow Hloop]|[Hhigh Hloop]]; rewrite Hloop.
    + left. split; [exact Hlow|reflexivity].
    + right. split; [exact Hhigh|reflexivity].
Qed.

(** Whenever its discount factors are finite non-zero doubles the whole
    of [calculate_enterprise_value] goes through. *)
Lemma enterprise_value_defined (fs : list Q) (terminal_value wacc : Q) :
  (forall i : Z, (1 <= i <= Z.of_nat (length fs))%Z ->
     Py.finite_nonzero ((1 + wacc) ^ i)) ->
  exists enterprise_value,
    calculate_enterprise_value fs terminal_value wacc
    = Ok (enterprise_value, discounted wacc 1 fs,
          terminal_value / (1 + wacc) ^ Z.of_nat (length fs)) /\
    enterprise_value
    == total_of (discounted wacc 1 fs)
       + terminal_value / (1 + wacc) ^ Z.of_nat (length fs).
Proof.
  intros Hall. pose proof underflow_below_overflow as Hgap.
  destruct (enterprise_value_outcome fs terminal_value wacc)
    as [[_ H]|(i & Hi & _ & Hstop)]; [exact H|].
  destruct (Hall i Hi) as [Hlow Hhigh].
  destruct Hstop as [[H _]|[H _]]; lra.
Qed.

(** Whatever [calculate_enterprise_value] returns was computed with
    discount factors that are finite non-zero doubles. *)
Lemma enterprise_value_inversion
    (fs : list Q) (terminal_value wacc enterprise_value : Q)
    (pv_fcff_list : list Q) (pv_terminal : Q) :
  calculate_enterprise_value fs terminal_value wacc
  = Ok (enterprise_value, pv_fcff_list, pv_terminal) ->
  (forall i : Z, (1 <= i <= Z.of_nat (length fs))%Z ->
     Py.finite_nonzero ((1 + wacc) ^ i)) /\
  pv_fcff_list = discounted wacc 1 fs /\
  pv_terminal = terminal_value / (1 + wacc) ^ Z.of_nat (length fs) /\
  enterprise_value == total_of pv_fcff_list + pv_terminal.
Proof.
  intros H.
  destruct (enterprise_value_outcome fs terminal_value wacc)
    as [[Hall (ev & Hev & Hsum)]|(i & _ & _ & [[_ Hstop]|[_ Hstop]])];
    rewrite H in *; [|discriminate Hstop..].
  injection Hev as -> -> ->.
  split; [exact Hall|]. split; [reflexivity|]. split; [reflexivity|exact Hsum].
Qed.

(** C3, with the range of a double taken into account: for a non-empty
    forecast and [wacc > -1] whose discount factors [(1 + wacc) ^ i],
    [i] from 1 to the length [n] of the forecast, are finite non-zero
    doubles, [calculate_enterprise_value] discounts the cash flow of
    year [i] by [(1 + wacc) ^ i], discounts the terminal value by
    [(1 + wacc) ^ n], and returns their sum as enterprise value; for a
    single year [[F]] that is [F / (1 + wacc) + TV / (1 + wacc)]. *)
Theorem calculate_enterprise_value_spec
    (forecasted_fcff : list Q) (terminal_value wacc : Q) :
  forecasted_fcff <> [] -> -1 < wacc ->
  (forall i : Z, (1 <= i <= Z.of_nat (length forecasted_fcff))%Z ->
     Py.finite_nonzero ((1 + wacc) ^ i)) ->
  exists enterprise_value pv_fcff_list pv_terminal,
    calculate_enterprise_value forecasted_fcff terminal_value wacc
    = Ok (enterprise_value, pv_fcff_list, pv_terminal) /\
    length pv_fcff_list = length forecasted_fcff /\
    (forall (i : nat) (fcff : Q),
        forecasted_fcff !! i = Some fcff ->
        pv_fcff_list !! i = Some (fcff / (1 + wacc) ^ (Z.of_nat i + 1))) /\
    pv_terminal
    = terminal_value / (1 + wacc) ^ Z.of_nat (length forecasted_fcff) /\
    enterprise_value == total_of pv_fcff_list + pv_terminal /\
    (forall F, forecasted_fcff = [F] ->
               enterprise_value
               == F / (1 + wacc) + terminal_value / (1 + wacc)).
Proof.
  intros _ _ Hfinite.
  destruct (enterprise_value_defined forecasted_fcff terminal_value wacc Hfinite)
    as (ev & -> & Hev).
  do 3 eexists. split; [reflexivity|].
  split; [apply discounted_length|].
  split; [|split; [reflexivity|split; [exact Hev|]]].
  - intros i fcff Hi. rewrite (discounted_lookup _ _ _ _ _ Hi).
    do 3 f_equal. lia.
  - intros F ->. rewrite Hev.
    change (total_of (discounted wacc 1 [F])) with (F / (1 + wacc) ^ 1 + 0).
    change (Z.of_nat (length [F])) with 1%Z.
    rewrite Qpower_1_r. lra.
Qed.

Lemma calculate_enterprise_value_spec_witness :
  exists enterprise_value pv_fcff_list pv_terminal,
    calculate_enterprise_value [77.7; 81.585] 1000 0.09
    = Ok (enterprise_value, pv_fcff_list, pv_terminal) /\
    length pv_fcff_list = 2%nat /\
    (forall (i : nat) (fcff : Q),
        [77.7; 81.585] !! i = Some fcff ->
        pv_fcff_list !! i = Some (fcff / (1 + 0.09) ^ (Z.of_nat i + 1))) /\
    pv_terminal = 1000 / (1 + 0.09) ^ Z.of_nat 2 /\
    enterprise_value == total_of pv_fcff_list + pv_terminal /\
    (forall F, [77.7; 81.585] = [F] ->
               enterprise_value == F / (1 + 0.09) + 1000 / (1 + 0.09)).
Proof.
  apply (calculate_enterprise_value_spec [77.7; 81.585] 1000 0.09).
  - discriminate.
  - by_evaluation.
  - intros i Hi. apply power_in_range; [by_evaluation|by_evaluation|].
    cbn in Hi. lia.
Defined.

(** C3, as stated, fails: [wacc = -(1 - 2^-52)], the double written
    -0.9999999999999998, is above -1 and [1 + wacc] is [2^-52]; over 21
    years the last discount factor [2^-1092] rounds to [0.0] and the
    division by it raises [ZeroDivisionError]. *)
Lemma calculate_enterprise_value_underflows :
  replicate 21 1 <> [] /\
  -1 < -1 + (1 # 2 ^ 52) /\
  calculate_enterprise_value (replicate 21 1) 0 (-1 + (1 # 2 ^ 52))
  = Raise ZeroDivisionError /\
  ~ exists enterprise_value pv_fcff_list pv_terminal,
      calculate_enterprise_value (replicate 21 1) 0 (-1 + (1 # 2 ^ 52))
      = Ok (enterprise_value, pv_fcff_list, pv_terminal).
Proof.
  assert (H : calculate_enterprise_value (replicate 21 1) 0 (-1 + (1 # 2 ^ 52))
              = Raise ZeroDivisionError) by (vm_compute; reflexivity).
  split; [discriminate|]. split; [by_evaluation|]. split; [exact H|].
  intros (ev & pvs & pvt & Hok). rewrite H in Hok. discriminate Hok.
Qed.

(** C9: [calculate_intrinsic_value_per_share] returns 0 when there are
    no shares outstanding and [equity_value / shares_outstanding]
    otherwise; the division is guarded, so the call never raises. *)
Theorem calculate_intrinsic_value_per_share_spec
    (equity_value shares_outstanding : Q) :
  (shares_outstanding == 0 ->
   calculate_intrinsic_value_per_share equity_value shares_outstanding = Ok 0) /\
  (~ shares_outstanding == 0 ->
   calculate_intrinsic_value_per_share equity_value shares_outstanding
   = Ok (equity_value / shares_outstanding)) /\
  (forall e,
   calculate_intrinsic_value_per_share equity_value shares_outstanding
   <> Raise e).
Proof.
  unfold calculate_intrinsic_value_per_share, Py.div.
  split; [|split].
  - intros H. apply Qeq_bool_iff in H. now rewrite H.
  - intros H. apply Qeq_bool_false in H. now rewrite H.
  - intros e. destruct (Qeq_bool shares_outstanding 0); discriminate.
Qed.

Lemma calculate_intrinsic_value_per_share_spec_witness :
  calculate_intrinsic_value_per_share 1500 0 = Ok 0 /\
  calculate_intrinsic_value_per_share 1500 40 = Ok (1500 / 40).
Proof.
  split.
  - apply (proj1 (calculate_intrinsic_value_per_share_spec 1500 0)).
    reflexivity.
  - apply (proj1 (proj2 (calculate_intrinsic_value_per_share_spec 1500 40))).
    by_evaluation.
Defined.

(** ** SensitivityAnalyzer *)

Lemma np_div_defined (x y : Q) :
  ~ y == 0 -> Np.div (Np.Fin x) (Np.Fin y) = Np.Fin (x / y).
Proof. intros H. simpl. apply Qeq_bool_false in H. now rewrite H. Qed.

(** The discounted forecast summed by the grid is finite when
    [1 + w] is not 0, and is the sum of the present values. *)
Lemma np_sum_discounted (w : Q) (fs : list Q) :
  ~ 1 + w == 0 ->
  forall (start : Z) (acc : Q),
  exists total,
    fold_left Np.add
      ((fun '(idx, fcff) => Np.div (Np.Fin fcff) (Np.Fin ((1 + w) ^ (idx + 1))))
         <$> Py.enumerate fs start)
      (Np.Fin acc)
    = Np.Fin total /\
    total == acc + total_of (discounted w (start + 1) fs).
Proof.
  intros Hnz. induction fs as [|f fs IH]; intros start acc.
  - exists acc. split; [reflexivity|]. unfold total_of. simpl. lra.
  - cbn [Py.enumerate fmap list_fmap fold_left].
    rewrite np_div_defined by now apply Qpower_not_0.
    cbn [Np.add].
    destruct (IH (start + 1)%Z (acc + f / (1 + w) ^ (start + 1)))
      as (total & -> & Htotal).
    exists total. split; [reflexivity|].
    rewrite Htotal. unfold total_of. simpl. lra.
Qed.

Lemma last_item_defined {A : Type} (l : list A) :
  l <> [] -> exists x, Py.last_item l = Ok x.
Proof.
  intros H. apply last_is_Some in H as [x Hx].
  exists x. unfold Py.last_item. now rewrite Hx.
Qed.


(** With a non-empty forecast no cell raises. *)
Lemma sensitivity_cell_total
    (fs : list Q) (total_debt cash shares_outstanding w g : Q) :
  fs <> [] ->
  exists c, sensitivity_cell fs total_debt cash shares_outstanding w g = Ok c.
Proof.
  intros Hfs. unfold sensitivity_cell.
  destruct (Qlt_bool g w); [|eauto].
  destruct (last_item_defined fs Hfs) as [x ->]. simpl. eauto.
Qed.

(** A cell whose WACC exceeds its growth rate holds a number, provided
    the divisors [1 + w] and [shares_outstanding] do not vanish: the
    discounted forecast plus the discounted terminal value, less debt,
    plus cash, per share. *)
Lemma sensitivity_cell_valid
    (fs : list Q) (total_debt cash shares_outstanding w g : Q) :
  fs <> [] -> g < w -> ~ 1 + w == 0 -> ~ shares_outstanding == 0 ->
  exists fcff_final v,
    Py.last_item fs = Ok fcff_final /\
    sensitivity_cell fs total_debt cash shares_outstanding w g = Ok (Np.Fin v) /\
    v == (total_of (discounted w 1 fs)
          + fcff_final * (1 + g) / (w - g) / (1 + w) ^ Z.of_nat (length fs)
          - total_debt + cash) / shares_outstanding.
Proof.
  intros Hfs Hgw Hw Hshares.
  destruct (last_item_defined fs Hfs) as [fcff_final Hlast].
  set (tv := fcff_final * (1 + g) / (w - g)).
  destruct (np_sum_discounted w fs Hw 0 0) as (total & Htotal & Htotal_eq).
  exists fcff_final,
         ((total + tv / (1 + w) ^ Z.of_nat (length fs) + - total_debt + cash)
          / shares_outstanding).
  split; [exact Hlast|]. split.
  { unfold sensitivity_cell.
    apply Qlt_bool_true in Hgw as Hb. rewrite Hb, Hlast. unfold mbind, result_bind.
    cbv zeta. unfold Np.sum, Py.len. rewrite Htotal.
    rewrite (np_div_defined _ (w - g)) by lra. fold tv.
    rewrite (np_div_defined tv) by now apply Qpower_not_0.
    unfold Np.sub. cbn [Np.add Np.neg].
    rewrite np_div_defined by exact Hshares. reflexivity. }
  assert (Htot : total == total_of (discounted w 1 fs)).
  { rewrite Htotal_eq. change (0 + 1)%Z with 1%Z. lra. }
  rewrite Htot. unfold tv, Qminus. reflexivity.
Qed.

(** The same value through the valuation functions: terminal value,
    enterprise value, equity value and value per share, for discount
    factors that are finite non-zero doubles. *)
Lemma valuation_chain
    (fs : list Q) (total_debt cash shares_outstanding w g fcff_final : Q) :
  Py.last_item fs = Ok fcff_final ->
  g < w -> ~ shares_outstanding == 0 ->
  (forall i : Z, (1 <= i <= Z.of_nat (length fs))%Z ->
     Py.finite_nonzero ((1 + w) ^ i)) ->
  exists terminal_value enterprise_value pv_fcff_list pv_terminal per_share,
    calculate_terminal_value fcff_final g w = ([], Ok terminal_value) /\
    calculate_enterprise_value fs terminal_value w
    = Ok (enterprise_value, pv_fcff_list, pv_terminal) /\
    calculate_intrinsic_value_per_share
      (calculate_equity_value enterprise_value total_debt cash)
      shares_outstanding
    = Ok per_share /\
    per_share
    == (total_of (discounted w 1 fs)
        + fcff_final * (1 + g) / (w - g) / (1 + w) ^ Z.of_nat (length fs)
        - total_debt + cash) / shares_outstanding.
Proof.
  intros Hlast Hgw Hshares Hfinite.
  set (tv := fcff_final * (1 + g) / (w - g)).
  destruct (enterprise_value_defined fs tv w Hfinite) as (ev & Hev & Hsum).
  exists tv, ev, (discounted w 1 fs), (tv / (1 + w) ^ Z.of_nat (length fs)),
         (calculate_equity_value ev total_debt cash / shares_outstanding).
  split.
  { unfold calculate_terminal_value.
    apply Qle_bool_false in Hgw as Hb. rewrite Hb.
    rewrite div_defined by lra. reflexivity. }
  split; [exact Hev|]. split.
  { unfold calculate_intrinsic_value_per_share.
    apply Qeq_bool_false in Hshares as Hb. rewrite Hb.
    now apply div_defined. }
  unfold calculate_equity_value. rewrite Hsum. unfold tv. reflexivity.
Qed.

(** The two nested loops, for a cell computation that never raises:
    every entry of the zero matrix is overwritten, row by row and column
    by column, with the value of its cell. *)
Section grid_loops.

Variable cell : Q -> Q -> result Np.float64.
Variable value : Q -> Q -> Np.float64.
Hypothesis cell_defined : forall w g, cell w g = Ok (value w g).

Lemma growth_loop_fills (i : nat) (w : Q) (gs : list Q) :
  forall (filled : list Np.float64) (above below : list (list Np.float64)),
  length above = i ->
  growth_loop cell i w (length filled) gs
    (above ++ (filled ++ replicate (length gs) (Np.Fin 0)) :: below)
  = Ok (above ++ (filled ++ (value w <$> gs)) :: below).
Proof.
  induction gs as [|g gs IH]; intros filled above below Hi.
  - reflexivity.
  - cbn [growth_loop]. rewrite cell_defined.
    unfold mbind, result_bind, Np.set_item.
    rewrite alter_app_r_alt by lia.
    replace (i - length above)%nat with 0%nat by lia.
    cbn [alter list_alter].
    rewrite insert_app_r_alt by lia. rewrite Nat.sub_diag.
    cbn [length replicate insert list_insert].
    specialize (IH (filled ++ [value w g]) above below Hi).
    rewrite length_app, Nat.add_1_r, <- !app_assoc in IH.
    exact IH.
Qed.

Lemma wacc_loop_fills (ws gs : list Q) :
  forall done : list (list Np.float64),
  wacc_loop cell (length done) ws gs
    (done ++ replicate (length ws) (replicate (length gs) (Np.Fin 0)))
  = Ok (done ++ ((fun w => value w <$> gs) <$> ws)).
Proof.
  induction ws as [|w ws IH]; intros done.
  - reflexivity.
  - cbn [wacc_loop length replicate].
    rewrite (growth_loop_fills (length done) w gs [] done _ eq_refl).
    unfold mbind, result_bind. cbn [app].
    specialize (IH (done ++ [value w <$> gs])).
    rewrite length_app, Nat.add_1_r, <- !app_assoc in IH.
    exact IH.
Qed.

End grid_loops.

Lemma get_item_table
    (value : Q -> Q -> Np.float64) (ws gs : list Q) (i j : nat) (w g : Q) :
  ws !! i = Some w -> gs !! j = Some g ->
  Np.get_item ((fun w => value w <$> gs) <$> ws) i j = Some (value w g).
Proof.
  intros Hw Hg. unfold Np.get_item.
  rewrite list_lookup_fmap, Hw. simpl.
  now rewrite list_lookup_fmap, Hg.
Qed.

Lemma linspace_length (start stop : Q) (num : nat) :
  length (Np.linspace start stop num) = num.
Proof.
  unfold Np.linspace. destruct (1 <? num)%nat.
  - now rewrite length_insert, length_fmap, length_seq.
  - now rewrite length_fmap, length_seq.
Qed.




(** In that scenario the lowest WACC of the grid, 4%, meets growth rates
    of 4.08% and 4.5%: those two cells are [nan], their neighbour is a
    number. *)
Example sensitivity_matrix_scenario :
  exists m,
    sensitivity_matrix [77.7; 81.585; 85.66425] 0.04 0.05 100 50 40 = Ok m /\
    Np.get_item m 0 5 = Some Np.NaN /\
    Np.get_item m 0 6 = Some Np.NaN /\
    exists v, Np.get_item m 0 4 = Some (Np.Fin v) /\ v == 6451897 # 10816.
Proof.
  eexists. split; [vm_compute; reflexivity|].
  split; [reflexivity|]. split; [reflexivity|].
  eexists. split; reflexivity.
Qed.

(** * Further properties *)

(** ** Helper facts on the capital-cost functions *)

Lemma tax_rate_bounded (ebit : Q) (tax_expense : option Q) :
  exists rate,
    calculate_tax_rate ebit tax_expense = Ok rate /\ 0 <= rate <= 0.5.
Proof.
  unfold calculate_tax_rate.
  destruct tax_expense as [tax|]; [|eexists; split; [reflexivity|split; lra]].
  destruct (Qle_bool ebit 0) eqn:Hb.
  - eexists; split; [reflexivity|split; lra].
  - apply Qle_bool_false in Hb. rewrite div_defined by lra.
    eexists; split; [reflexivity|].
    unfold Py.max, Py.min. by_tests; split; lra.
Qed.

Lemma cost_of_debt_defined
    (total_debt : Q) (interest_expense : option Q) (tax_rate : Q) :
  exists cost,
    calculate_cost_of_debt total_debt interest_expense tax_rate = Ok cost.
Proof.
  unfold calculate_cost_of_debt.
  destruct (Qeq_bool total_debt 0) eqn:Hb; [eauto|].
  apply Qeq_bool_false in Hb.
  destruct interest_expense as [interest|]; [|eauto].
  destruct (Qeq_bool interest 0); [eauto|].
  rewrite div_defined by exact Hb. eauto.
Qed.

Lemma wacc_defined (cost_of_equity cost_of_debt market_cap total_debt : Q) :
  exists wacc,
    calculate_wacc cost_of_equity cost_of_debt market_cap total_debt = Ok wacc.
Proof.
  unfold calculate_wacc. cbv zeta.
  destruct (Qeq_bool (market_cap + total_debt) 0) eqn:Hb; [eauto|].
  apply Qeq_bool_false in Hb. rewrite !div_defined by exact Hb. eauto.
Qed.

Lemma per_share_defined (equity_value shares_outstanding : Q) :
  exists value,
    calculate_intrinsic_value_per_share equity_value shares_outstanding
    = Ok value.
Proof.
  unfold calculate_intrinsic_value_per_share, Py.div.
  destruct (Qeq_bool shares_outstanding 0); eauto.
Qed.

(** The WACC is at most any bound that both costs respect. *)
Lemma wacc_at_most
    (cost_of_equity cost_of_debt market_cap total_debt wacc bound : Q) :
  cost_of_equity <= bound -> cost_of_debt <= bound ->
  0 <= market_cap -> 0 <= total_debt ->
  calculate_wacc cost_of_equity cost_of_debt market_cap total_debt = Ok wacc ->
  wacc <= bound.
Proof.
  intros Hce Hcd Hcap Hdebt. unfold calculate_wacc. cbv zeta.
  destruct (Qeq_bool (market_cap + total_debt) 0) eqn:Hb.
  { now intros [= <-]. }
  apply Qeq_bool_false in Hb. rewrite !div_defined by exact Hb.
  intros [= <-].
  assert (Hpos : 0 < market_cap + total_debt).
  { assert (H : 0 <= market_cap + total_debt) by lra.
    apply Qle_lteq in H as [H|H]; [exact H|]. symmetry in H. contradiction. }
  assert (Hwe : 0 <= market_cap / (market_cap + total_debt))
    by (apply Qle_shift_div_l; [exact Hpos|lra]).
  assert (Hwd : 0 <= total_debt / (market_cap + total_debt))
    by (apply Qle_shift_div_l; [exact Hpos|lra]).
  assert (Hone : market_cap / (market_cap + total_debt)
                 + total_debt / (market_cap + total_debt) == 1)
    by (field; lra).
  remember (market_cap / (market_cap + total_debt)) as weight_equity eqn:Ee.
  remember (total_debt / (market_cap + total_debt)) as weight_debt eqn:Ed.
  clear Ee Ed.
  assert (0 <= weight_equity * (bound - cost_of_equity))
    by (apply Qmult_le_0_compat; lra).
  assert (0 <= weight_debt * (bound - cost_of_debt))
    by (apply Qmult_le_0_compat; lra).
  assert (bound == (weight_equity + weight_debt) * bound)
    by (rewrite Hone; ring).
  lra.
Qed.

(** ** The run monad *)

Lemma bind_silent_ok {A B : Type} (a : A) (f : A -> Run.t B) :
  Run.silent (Ok a) ≫= f = f a.
Proof. unfold mbind, Run.run_bind. simpl. now destruct (f a). Qed.

Lemma bind_silent_raise {A B : Type} (e : exn) (f : A -> Run.t B) :
  Run.silent (Raise e) ≫= f = Run.make [] (Raise e).
Proof. reflexivity. Qed.

Lemma bind_printing_ok {A B : Type} (out : list string) (a : A) (f : A -> Run.t B) :
  Run.printing (out, Ok a) ≫= f
  = Run.make (out ++ Run.stdout (f a)) (Run.outcome (f a)).
Proof. reflexivity. Qed.

(** ** ValuationEngine: errors and degenerate inputs *)

(** The first discount factor that is not a finite non-zero double
    decides how [calculate_enterprise_value] fails. *)
Lemma enterprise_value_first_failure
    (fs : list Q) (terminal_value wacc : Q) (i : Z) :
  (1 <= i <= Z.of_nat (length fs))%Z ->
  (forall j : Z, (1 <= j < i)%Z -> Py.finite_nonzero ((1 + wacc) ^ j)) ->
  (Qabs ((1 + wacc) ^ i) <= Py.underflow_threshold ->
   calculate_enterprise_value fs terminal_value wacc = Raise ZeroDivisionError) /\
  (Py.overflow_threshold <= Qabs ((1 + wacc) ^ i) ->
   calculate_enterprise_value fs terminal_value wacc = Raise OverflowError).
Proof.
  intros Hi Hbefore. pose proof underflow_below_overflow as Hgap.
  assert (Hfirst :
            ~ Py.finite_nonzero ((1 + wacc) ^ i) ->
            (Qabs ((1 + wacc) ^ i) <= Py.underflow_threshold /\
             calculate_enterprise_value fs terminal_value wacc
             = Raise ZeroDivisionError) \/
            (Py.overflow_threshold <= Qabs ((1 + wacc) ^ i) /\
             calculate_enterprise_value fs terminal_value wacc
             = Raise OverflowError)).
  { intros Hnot.
    destruct (enterprise_value_outcome fs terminal_value wacc)
      as [[Hall _]|(k & Hk & Hbefore' & Hstop)].
    - contradiction (Hnot (Hall i Hi)).
    - assert (Hsame : k = i).
      { destruct (Z.lt_trichotomy k i) as [Hlt|[Heq|Hgt]]; [|exact Heq|].
        - exfalso. destruct (Hbefore k ltac:(lia)) as [Hlow Hhigh].
          destruct Hstop as [[H _]|[H _]]; lra.
        - exfalso. apply Hnot, Hbefore'. lia. }
      subst k. exact Hstop. }
  split; intros H.
  - destruct Hfirst as [[_ Hr]|[Hhigh _]]; [|exact Hr|lra].
    intros [Hlow Hhigh]. lra.
  - destruct Hfirst as [[Hlow _]|[_ Hr]]; [|lra|exact Hr].
    intros [Hlow Hhigh]. lra.
Qed.

(** X1: how [calculate_enterprise_value] fails.  On an empty forecast
    it returns, and the enterprise value is the undiscounted terminal
    value.  It raises [ZeroDivisionError] exactly when the first
    discount factor [(1 + wacc) ^ i] that is not a finite non-zero
    double rounds to zero, which is the case from the first year on
    when [wacc] is -1; it raises [OverflowError] exactly when that
    factor rounds to an infinity; it never raises [IndexError]. *)
Theorem calculate_enterprise_value_errors
    (forecasted_fcff : list Q) (terminal_value wacc : Q) :
  (forecasted_fcff = [] ->
   exists enterprise_value pv_terminal,
     calculate_enterprise_value forecasted_fcff terminal_value wacc
     = Ok (enterprise_value, [], pv_terminal) /\
     enterprise_value == terminal_value /\ pv_terminal == terminal_value) /\
  (calculate_enterprise_value forecasted_fcff terminal_value wacc
   = Raise ZeroDivisionError
   <-> exists i : Z,
         (1 <= i <= Z.of_nat (length forecasted_fcff))%Z /\
         (forall j : Z, (1 <= j < i)%Z ->
            Py.finite_nonzero ((1 + wacc) ^ j)) /\
         Qabs ((1 + wacc) ^ i) <= Py.underflow_threshold) /\
  (calculate_enterprise_value forecasted_fcff terminal_value wacc
   = Raise OverflowError
   <-> exists i : Z,
         (1 <= i <= Z.of_nat (length forecasted_fcff))%Z /\
         (forall j : Z, (1 <= j < i)%Z ->
            Py.finite_nonzero ((1 + wacc) ^ j)) /\
         Py.overflow_threshold <= Qabs ((1 + wacc) ^ i)) /\
  calculate_enterprise_value forecasted_fcff terminal_value wacc
  <> Raise IndexError /\
  (forecasted_fcff <> [] -> 1 + wacc == 0 ->
   calculate_enterprise_value forecasted_fcff terminal_value wacc
   = Raise ZeroDivisionError).
Proof.
  split; [|split; [|split; [|split]]].
  - intros ->.
    destruct (enterprise_value_defined [] terminal_value wacc)
      as (ev & Hev & Hsum).
    { intros i Hi. cbn in Hi. lia. }
    do 2 eexists. split; [exact Hev|].
    change ((1 + wacc) ^ Z.of_nat (length (@nil Q))) with 1 in *.
    change (total_of (discounted wacc 1 [])) with 0 in Hsum.
    split; [rewrite Hsum|]; field.
  - split.
    + intros Hraise.
      destruct (enterprise_value_outcome forecasted_fcff terminal_value wacc)
        as [[_ (ev & Hev & _)]|(i & Hi & Hbefore & [[Hlow _]|[_ Hstop]])].
      * rewrite Hev in Hraise. discriminate Hraise.
      * exists i. auto.
      * rewrite Hstop in Hraise. discriminate Hraise.
    + intros (i & Hi & Hbefore & Hlow).
      now apply (enterprise_value_first_failure _ terminal_value _ i Hi Hbefore).
  - split.
    + intros Hraise.
      destruct (enterprise_value_outcome forecasted_fcff terminal_value wacc)
        as [[_ (ev & Hev & _)]|(i & Hi & Hbefore & [[_ Hstop]|[Hhigh _]])].
      * rewrite Hev in Hraise. discriminate Hraise.
      * rewrite Hstop in Hraise. discriminate Hraise.
      * exists i. auto.
    + intros (i & Hi & Hbefore & Hhigh).
      now apply (enterprise_value_first_failure _ terminal_value _ i Hi Hbefore).
  - destruct (enterprise_value_outcome forecasted_fcff terminal_value wacc)
      as [[_ (ev & Hev & _)]|(i & _ & _ & [[_ Hstop]|[_ Hstop]])];
      [rewrite Hev|rewrite Hstop..]; discriminate.
  - intros Hfs Hz.
    apply (enterprise_value_first_failure _ terminal_value _ 1).
    + destruct forecasted_fcff; [contradiction|]. cbn [length]. lia.
    + intros j Hj. lia.
    + rewrite Qpower_1_r, Hz. by_evaluation.
Qed.

Lemma calculate_enterprise_value_errors_witness :
  calculate_enterprise_value [77.7; 81.585] 1000 (-1) = Raise ZeroDivisionError /\
  exists enterprise_value pv_terminal,
    calculate_enterprise_value [] 1000 (-1)
    = Ok (enterprise_value, [], pv_terminal) /\
    enterprise_value == 1000 /\ pv_terminal == 1000.
Proof.
  split.
  - apply (proj2 (proj2 (proj2 (proj2
             (calculate_enterprise_value_errors [77.7; 81.585] 1000 (-1)))))).
    + discriminate.
    + reflexivity.
  - apply (proj1 (calculate_enterprise_value_errors [] 1000 (-1))).
    reflexivity.
Defined.

Lemma terminal_value_defined (fcff_final perpetual_growth wacc : Q) :
  exists out terminal_value,
    calculate_terminal_value fcff_final perpetual_growth wacc
    = (out, Ok terminal_value) /\
    (wacc <= perpetual_growth ->
     out = [terminal_value_message] /\ terminal_value = 0) /\
    (perpetual_growth < wacc ->
     out = [] /\
     terminal_value
     = fcff_final * (1 + perpetual_growth) / (wacc - perpetual_growth)).
Proof.
  unfold calculate_terminal_value.
  destruct (Qle_bool wacc perpetual_growth) eqn:Hb.
  - apply Qle_bool_iff in Hb. do 2 eexists. split; [reflexivity|].
    split; [auto|]. intros H. exfalso. apply (Qlt_not_le _ _ H Hb).
  - apply Qle_bool_false in Hb. rewrite div_defined by lra.
    do 2 eexists. split; [reflexivity|].
    split; [|auto]. intros H. exfalso. apply (Qlt_not_le _ _ Hb H).
Qed.

(** ** The calculation block of [main] *)

Lemma cost_of_debt_in_unit
    (total_debt : Q) (interest_expense : option Q) (tax_rate cost : Q) :
  0 <= total_debt ->
  (forall interest,
      interest_expense = Some interest -> 0 <= interest <= total_debt) ->
  0 <= tax_rate <= 1 ->
  calculate_cost_of_debt total_debt interest_expense tax_rate = Ok cost ->
  0 <= cost <= 1.
Proof.
  intros Hdebt Hinterest Htax. unfold calculate_cost_of_debt.
  destruct (Qeq_bool total_debt 0) eqn:Hb.
  { intros [= <-]. lra. }
  apply Qeq_bool_false in Hb.
  assert (Hpos : 0 < total_debt).
  { apply Qle_lteq in Hdebt as [H|H]; [exact H|]. symmetry in H. contradiction. }
  destruct interest_expense as [interest|].
  - destruct (Qeq_bool interest 0).
    + intros [= <-]. split; lra.
    + rewrite div_defined by exact Hb. intros [= <-].
      specialize (Hinterest interest eq_refl).
      assert (Hlow : 0 <= interest / total_debt)
        by (apply Qle_shift_div_l; [exact Hpos|lra]).
      assert (Hhigh : interest / total_debt <= 1)
        by (apply Qle_shift_div_r; [exact Hpos|lra]).
      remember (interest / total_debt) as pretax.
      assert (0 <= pretax * (1 - tax_rate)) by (apply Qmult_le_0_compat; lra).
      assert (0 <= pretax * tax_rate) by (apply Qmult_le_0_compat; lra).
      split; lra.
  - intros [= <-]. split; lra.
Qed.

Lemma wacc_nonneg (cost_of_equity cost_of_debt market_cap total_debt wacc : Q) :
  0 <= cost_of_equity -> 0 <= cost_of_debt ->
  0 <= market_cap -> 0 <= total_debt ->
  calculate_wacc cost_of_equity cost_of_debt market_cap total_debt = Ok wacc ->
  0 <= wacc.
Proof.
  intros Hce Hcd Hcap Hdebt. unfold calculate_wacc. cbv zeta.
  destruct (Qeq_bool (market_cap + total_debt) 0) eqn:Hb.
  { now intros [= <-]. }
  apply Qeq_bool_false in Hb. rewrite !div_defined by exact Hb.
  intros [= <-].
  assert (Hpos : 0 < market_cap + total_debt).
  { assert (H : 0 <= market_cap + total_debt) by lra.
    apply Qle_lteq in H as [H|H]; [exact H|]. symmetry in H. contradiction. }
  assert (0 <= market_cap / (market_cap + total_debt))
    by (apply Qle_shift_div_l; [exact Hpos|lra]).
  assert (0 <= total_debt / (market_cap + total_debt))
    by (apply Qle_shift_div_l; [exact Hpos|lra]).
  assert (0 <= market_cap / (market_cap + total_debt) * cost_of_equity)
    by now apply Qmult_le_0_compat.
  assert (0 <= total_debt / (market_cap + total_debt) * cost_of_debt)
    by now apply Qmult_le_0_compat.
  lra.
Qed.

Section main_block.

Variable inputs : Inputs.t.
Variable company_data : CompanyData.t.

(** The first three calls of the block never fail. *)
Lemma main_capital_costs :
  exists tax_rate cost_of_debt wacc,
    calculate_tax_rate (CompanyData.ebit company_data)
                       (CompanyData.tax_expense company_data) = Ok tax_rate /\
    0 <= tax_rate <= 0.5 /\
    calculate_cost_of_debt (CompanyData.total_debt company_data)
                           (CompanyData.interest_expense company_data)
                           tax_rate = Ok cost_of_debt /\
    calculate_wacc
      (calculate_cost_of_equity (Inputs.risk_free_rate inputs)
                                (CompanyData.beta company_data)
                                (Inputs.equity_risk_premium inputs))
      cost_of_debt
      (CompanyData.market_cap company_data)
      (CompanyData.total_debt company_data) = Ok wacc.
Proof.
  destruct (tax_rate_bounded (CompanyData.ebit company_data)
              (CompanyData.tax_expense company_data)) as (tr & Htr & Hb).
  destruct (cost_of_debt_defined (CompanyData.total_debt company_data)
              (CompanyData.interest_expense company_data) tr) as (cod & Hcod).
  destruct (wacc_defined
              (calculate_cost_of_equity (Inputs.risk_free_rate inputs)
                 (CompanyData.beta company_data)
                 (Inputs.equity_risk_premium inputs))
              cod
              (CompanyData.market_cap company_data)
              (CompanyData.total_debt company_data)) as (w & Hw).
  exists tr, cod, w. auto.
Qed.

(** The run of the block, call by call: it stops at the first call that
    raises, with what [calculate_terminal_value] has printed by then,
    and otherwise returns the values computed on the way. *)
Lemma main_run (tax_rate cost_of_debt wacc : Q) :
  calculate_tax_rate (CompanyData.ebit company_data)
                     (CompanyData.tax_expense company_data) = Ok tax_rate ->
  calculate_cost_of_debt (CompanyData.total_debt company_data)
                         (CompanyData.interest_expense company_data)
                         tax_rate = Ok cost_of_debt ->
  calculate_wacc
    (calculate_cost_of_equity (Inputs.risk_free_rate inputs)
                              (CompanyData.beta company_data)
                              (Inputs.equity_risk_premium inputs))
    cost_of_debt
    (CompanyData.market_cap company_data)
    (CompanyData.total_debt company_data) = Ok wacc ->
  match
    forecast_fcff
      (calculate_fcff (CompanyData.ebit company_data) tax_rate
                      (CompanyData.depreciation company_data)
                      (CompanyData.capex company_data)
                      (CompanyData.change_in_wc company_data))
      (Inputs.forecast_years inputs) (Inputs.short_term_growth inputs)
  with
  | Raise e => main_calculations inputs company_data = Run.make [] (Raise e)
  | Ok forecasted_fcff =>
      match Py.last_item forecasted_fcff with
      | Raise e => main_calculations inputs company_data = Run.make [] (Raise e)
      | Ok fcff_final =>
          exists out terminal_value,
            calculate_terminal_value fcff_final
              (Inputs.perpetual_growth inputs) wacc
            = (out, Ok terminal_value) /\
            match
              calculate_enterprise_value forecasted_fcff terminal_value wacc
            with
            | Raise e =>
                main_calculations inputs company_data = Run.make out (Raise e)
            | Ok (enterprise_value, pv_fcff_list, pv_terminal) =>
                exists intrinsic_value,
                  calculate_intrinsic_value_per_share
                    (calculate_equity_value enterprise_value
                       (CompanyData.total_debt company_data)
                       (CompanyData.cash company_data))
                    (CompanyData.shares_outstanding company_data)
                  = Ok intrinsic_value /\
                  main_calculations inputs company_data
                  = Run.make out
                      (Ok (Valuation.make tax_rate
                             (calculate_cost_of_equity
                                (Inputs.risk_free_rate inputs)
                                (CompanyData.beta company_data)
                                (Inputs.equity_risk_premium inputs))
                             cost_of_debt wacc
                             (calculate_fcff (CompanyData.ebit company_data)
                                tax_rate
                                (CompanyData.depreciation company_data)
                                (CompanyData.capex company_data)
                                (CompanyData.change_in_wc company_data))
                             forecasted_fcff terminal_value enterprise_value
                             pv_fcff_list pv_terminal
                             (calculate_equity_value enterprise_value
                                (CompanyData.total_debt company_data)
                                (CompanyData.cash company_data))
                             intrinsic_value))
            end
      end
  end.
Proof.
  intros Htr Hcod Hw. unfold main_calculations.
  rewrite Htr, bind_silent_ok. cbv zeta.
  rewrite Hcod, bind_silent_ok, Hw, bind_silent_ok.
  destruct (forecast_fcff _ _ _) as [fs|e]; [|reflexivity].
  rewrite bind_silent_ok.
  destruct (Py.last_item fs) as [ff|e]; [|reflexivity].
  rewrite bind_silent_ok.
  destruct (terminal_value_defined ff (Inputs.perpetual_growth inputs) wacc)
    as (out & tv & Htv & _).
  exists out, tv. split; [exact Htv|].
  rewrite Htv, bind_printing_ok.
  destruct (calculate_enterprise_value fs tv wacc) as [[[ev pvs] pvt]|e].
  - destruct (per_share_defined
                (calculate_equity_value ev (CompanyData.total_debt company_data)
                   (CompanyData.cash company_data))
                (CompanyData.shares_outstanding company_data)) as (ps & Hps).
    exists ps. split; [exact Hps|].
    rewrite bind_silent_ok, Hps, bind_silent_ok.
    simpl. now rewrite app_nil_r.
  - simpl. now rewrite app_nil_r.
Qed.

End main_block.

(** With no forecast year the block stops at [forecasted_fcff[-1]]. *)
Lemma main_no_forecast (inputs : Inputs.t) (company_data : CompanyData.t) :
  (Inputs.forecast_years inputs <= 0)%Z ->
  main_calculations inputs company_data = Run.make [] (Raise IndexError).
Proof.
  intros Hyears.
  destruct (main_capital_costs inputs company_data)
    as (tr & cod & w & Htr & _ & Hcod & Hw).
  pose proof (main_run inputs company_data tr cod w Htr Hcod Hw) as Hrun.
  rewrite forecast_fcff_empty in Hrun by exact Hyears. exact Hrun.
Qed.

(** With a growth power beyond the range of a double the block stops in
    [forecast_fcff]. *)
Lemma main_forecast_overflow (inputs : Inputs.t) (company_data : CompanyData.t) :
  (exists i : Z,
     (1 <= i <= Inputs.forecast_years inputs)%Z /\
     Py.overflow_threshold
     <= Qabs ((1 + default 0.05 (Inputs.short_term_growth inputs)) ^ i)) ->
  main_calculations inputs company_data = Run.make [] (Raise OverflowError).
Proof.
  intros Hhigh.
  destruct (main_capital_costs inputs company_data)
    as (tr & cod & w & Htr & _ & Hcod & Hw).
  pose proof (main_run inputs company_data tr cod w Htr Hcod Hw) as Hrun.
  rewrite forecast_fcff_overflow in Hrun by exact Hhigh. exact Hrun.
Qed.

(** Whatever [main_calculations] returns was obtained by the chain of
    calls of the block, none of which failed. *)
Lemma main_inversion
    (inputs : Inputs.t) (company_data : CompanyData.t) (v : Valuation.t) :
  Run.outcome (main_calculations inputs company_data) = Ok v ->
  exists fcff_final,
    (1 <= Inputs.forecast_years inputs)%Z /\
    ~ 1 + Valuation.wacc v == 0 /\
    calculate_tax_rate (CompanyData.ebit company_data)
                       (CompanyData.tax_expense company_data)
    = Ok (Valuation.tax_rate v) /\
    0 <= Valuation.tax_rate v <= 0.5 /\
    Valuation.cost_of_equity v
    = calculate_cost_of_equity (Inputs.risk_free_rate inputs)
                               (CompanyData.beta company_data)
                               (Inputs.equity_risk_premium inputs) /\
    calculate_cost_of_debt (CompanyData.total_debt company_data)
                           (CompanyData.interest_expense company_data)
                           (Valuation.tax_rate v)
    = Ok (Valuation.cost_of_debt v) /\
    calculate_wacc (Valuation.cost_of_equity v) (Valuation.cost_of_debt v)
                   (CompanyData.market_cap company_data)
                   (CompanyData.total_debt company_data)
    = Ok (Valuation.wacc v) /\
    forecast_fcff (Valuation.base_fcff v) (Inputs.forecast_years inputs)
                  (Inputs.short_term_growth inputs)
    = Ok (Valuation.forecasted_fcff v) /\
    Py.last_item (Valuation.forecasted_fcff v) = Ok fcff_final /\
    calculate_terminal_value fcff_final (Inputs.perpetual_growth inputs)
                             (Valuation.wacc v)
    = (Run.stdout (main_calculations inputs company_data),
       Ok (Valuation.terminal_value v)) /\
    Valuation.pv_fcff_list v
    = discounted (Valuation.wacc v) 1 (Valuation.forecasted_fcff v) /\
    Valuation.pv_terminal v
    = Valuation.terminal_value v
      / (1 + Valuation.wacc v)
        ^ Z.of_nat (length (Valuation.forecasted_fcff v)) /\
    Valuation.enterprise_value v
    == total_of (Valuation.pv_fcff_list v) + Valuation.pv_terminal v /\
    Valuation.equity_value v
    = calculate_equity_value (Valuation.enterprise_value v)
        (CompanyData.total_debt company_data) (CompanyData.cash company_data) /\
    calculate_intrinsic_value_per_share
      (Valuation.equity_value v) (CompanyData.shares_outstanding company_data)
    = Ok (Valuation.intrinsic_value v) /\
    length (Valuation.forecasted_fcff v)
    = Z.to_nat (Inputs.forecast_years inputs).
Proof.
  intros Hv.
  destruct (main_capital_costs inputs company_data)
    as (tr & cod & w & Htr & Hbound & Hcod & Hw).
  pose proof (main_run inputs company_data tr cod w Htr Hcod Hw) as Hrun.
  destruct (forecast_fcff _ _ _) as [fs|e] eqn:Hforecast;
    [|rewrite Hrun in Hv; discriminate Hv].
  destruct (Py.last_item fs) as [ff|e] eqn:Hlast;
    [|rewrite Hrun in Hv; discriminate Hv].
  destruct Hrun as (out & tv & Htv & Hrun).
  destruct (calculate_enterprise_value fs tv w) as [[[ev pvs] pvt]|e] eqn:Hev;
    [|rewrite Hrun in Hv; discriminate Hv].
  destruct Hrun as (ps & Hps & Hrun).
  rewrite Hrun in Hv |- *. cbn [Run.outcome Run.stdout] in Hv |- *.
  injection Hv as <-.
  cbn [Valuation.tax_rate Valuation.cost_of_equity Valuation.cost_of_debt
       Valuation.wacc Valuation.base_fcff Valuation.forecasted_fcff
       Valuation.terminal_value Valuation.enterprise_value
       Valuation.pv_fcff_list Valuation.pv_terminal Valuation.equity_value
       Valuation.intrinsic_value].
  apply enterprise_value_inversion in Hev as (Hfinite & -> & -> & Hsum).
  apply forecast_fcff_inversion in Hforecast as Hlen. destruct Hlen as [Hlen _].
  assert (Hfs : fs <> []) by (intros ->; discriminate Hlast).
  assert (Hpos : (1 <= length fs)%nat).
  { destruct fs; [contradiction|]. cbn [length]. lia. }
  exists ff.
  split; [lia|]. split.
  { intros Hz. apply (finite_nonzero_not_0 _ (Hfinite 1%Z ltac:(lia))).
    now rewrite Qpower_1_r. }
  repeat (split; [first [assumption | reflexivity]|]).
  exact Hlen.
Qed.

(** X2: how the calculations of [main] fail on their inputs.  The tax
    rate, the cost of debt and the WACC are always obtained.  With
    [forecast_years <= 0] the forecast is empty and [forecasted_fcff[-1]]
    raises [IndexError] before anything is printed; when a growth power
    [(1 + g) ^ i] with [i <= forecast_years] is beyond the largest
    double, [forecast_fcff] raises [OverflowError] before anything is
    printed.  Whenever the block returns, the horizon was at least one
    year and there is one forecast and one present value per year. *)
Theorem main_calculations_outcomes
    (inputs : Inputs.t) (company_data : CompanyData.t) :
  (exists tax_rate cost_of_debt wacc,
     calculate_tax_rate (CompanyData.ebit company_data)
                        (CompanyData.tax_expense company_data) = Ok tax_rate /\
     calculate_cost_of_debt (CompanyData.total_debt company_data)
                            (CompanyData.interest_expense company_data)
                            tax_rate = Ok cost_of_debt /\
     calculate_wacc
       (calculate_cost_of_equity (Inputs.risk_free_rate inputs)
                                 (CompanyData.beta company_data)
                                 (Inputs.equity_risk_premium inputs))
       cost_of_debt
       (CompanyData.market_cap company_data)
       (CompanyData.total_debt company_data) = Ok wacc) /\
  ((Inputs.forecast_years inputs <= 0)%Z ->
   main_calculations inputs company_data = Run.make [] (Raise IndexError)) /\
  ((exists i : Z,
      (1 <= i <= Inputs.forecast_years inputs)%Z /\
      Py.overflow_threshold
      <= Qabs ((1 + default 0.05 (Inputs.short_term_growth inputs)) ^ i)) ->
   main_calculations inputs company_data = Run.make [] (Raise OverflowError)) /\
  (forall v,
      Run.outcome (main_calculations inputs company_data) = Ok v ->
      (1 <= Inputs.forecast_years inputs)%Z /\
      length (Valuation.forecasted_fcff v)
      = Z.to_nat (Inputs.forecast_years inputs) /\
      length (Valuation.pv_fcff_list v)
      = Z.to_nat (Inputs.forecast_years inputs)).
Proof.
  split; [|split; [|split]].
  - destruct (main_capital_costs inputs company_data)
      as (tr & cod & w & Htr & _ & Hcod & Hw).
    exists tr, cod, w. auto.
  - apply main_no_forecast.
  - apply main_forecast_overflow.
  - intros v Hv.
    destruct (main_inversion inputs company_data v Hv)
      as (ff & Hyears & _ & _ & _ & _ & _ & _ & _ & _ & _ & Hpvs & _ & _ & _
          & _ & Hlen).
    split; [exact Hyears|]. split; [exact Hlen|].
    now rewrite Hpvs, discounted_length.
Qed.

Lemma main_calculations_outcomes_witness :
  main_calculations
    (Inputs.make "ACME" 0.042 0.05 0 0.025 None)
    (CompanyData.make "Acme" 1.2 3000 40 (Some 80) 100 (Some 21) (Some 10)
                      (Some 5) 100 50 15 0)
  = Run.make [] (Raise IndexError) /\
  main_calculations
    (Inputs.make "ACME" 0.042 0.05 309 0.025 (Some 9))
    (CompanyData.make "Acme" 1.2 3000 40 (Some 80) 100 (Some 21) (Some 10)
                      (Some 5) 100 50 15 0)
  = Run.make [] (Raise OverflowError).
Proof.
  split.
  - apply (proj1 (proj2 (main_calculations_outcomes
                           (Inputs.make "ACME" 0.042 0.05 0 0.025 None)
                           (CompanyData.make "Acme" 1.2 3000 40 (Some 80) 100
                              (Some 21) (Some 10) (Some 5) 100 50 15 0)))).
    simpl. lia.
  - apply (proj1 (proj2 (proj2 (main_calculations_outcomes
                           (Inputs.make "ACME" 0.042 0.05 309 0.025 (Some 9))
                           (CompanyData.make "Acme" 1.2 3000 40 (Some 80) 100
                              (Some 21) (Some 10) (Some 5) 100 50 15 0))))).
    exists 309%Z. split; [simpl; lia|by_evaluation].
Defined.

(** X3: the calculations of [main] on figures of ordinary size.  With a
    horizon between 1 and 1000 years, non-negative rates and beta, a
    cost of equity of at most 100%, a non-negative market
    capitalisation and debt, an interest expense between 0 and the
    debt, and a growth override between 0 and 100%, every power stays
    inside the range of a double and the block raises nothing: it
    returns a valuation whose costs of equity and debt and whose WACC
    are non-negative, with one forecast and one present value per
    year. *)
Theorem main_calculations_succeeds
    (inputs : Inputs.t) (company_data : CompanyData.t) :
  (1 <= Inputs.forecast_years inputs <= 1000)%Z ->
  0 <= Inputs.risk_free_rate inputs ->
  0 <= Inputs.equity_risk_premium inputs ->
  0 <= CompanyData.beta company_data ->
  Inputs.risk_free_rate inputs
  + CompanyData.beta company_data * Inputs.equity_risk_premium inputs <= 1 ->
  0 <= CompanyData.market_cap company_data ->
  0 <= CompanyData.total_debt company_data ->
  (forall interest,
      CompanyData.interest_expense company_data = Some interest ->
      0 <= interest <= CompanyData.total_debt company_data) ->
  (forall growth,
      Inputs.short_term_growth inputs = Some growth -> 0 <= growth <= 1) ->
  exists v,
    Run.outcome (main_calculations inputs company_data) = Ok v /\
    0 <= Valuation.cost_of_equity v /\
    0 <= Valuation.cost_of_debt v /\
    0 <= Valuation.wacc v /\
    length (Valuation.forecasted_fcff v)
    = Z.to_nat (Inputs.forecast_years inputs) /\
    length (Valuation.pv_fcff_list v)
    = Z.to_nat (Inputs.forecast_years inputs).
Proof.
  intros Hyears Hrf Herp Hbeta Hone Hcap Hdebt Hinterest Hgrowth.
  destruct (main_capital_costs inputs company_data)
    as (tr & cod & w & Htr & Hbound & Hcod & Hw).
  assert (Hce : 0 <= calculate_cost_of_equity (Inputs.risk_free_rate inputs)
                       (CompanyData.beta company_data)
                       (Inputs.equity_risk_premium inputs) <= 1).
  { unfold calculate_cost_of_equity.
    assert (0 <= CompanyData.beta company_data
                 * Inputs.equity_risk_premium inputs)
      by now apply Qmult_le_0_compat.
    split; lra. }
  assert (Hcd : 0 <= cod <= 1).
  { apply (cost_of_debt_in_unit _ _ _ _ Hdebt Hinterest) in Hcod;
      [exact Hcod|split; lra]. }
  assert (Hwacc : 0 <= w <= 1).
  { split.
    - apply (wacc_nonneg _ _ _ _ _ (proj1 Hce) (proj1 Hcd) Hcap Hdebt Hw).
    - apply (wacc_at_most _ _ _ _ _ 1 (proj2 Hce) (proj2 Hcd) Hcap Hdebt Hw). }
  assert (Hg : 0 <= default 0.05 (Inputs.short_term_growth inputs) <= 1).
  { destruct (Inputs.short_term_growth inputs) as [growth|];
      [apply Hgrowth; reflexivity|cbn; split; by_evaluation]. }
  pose proof (main_run inputs company_data tr cod w Htr Hcod Hw) as Hrun.
  rewrite forecast_fcff_finite in Hrun.
  2: { intros i Hi. apply power_in_range; [lra|lra|lia]. }
  set (fs := (fun year : Z => _) <$> Py.range 1 _) in Hrun.
  assert (Hlen : length fs = Z.to_nat (Inputs.forecast_years inputs)).
  { unfold fs. rewrite length_fmap, range_length. f_equal. lia. }
  assert (Hfs : fs <> []).
  { intros Hnil. rewrite Hnil in Hlen. cbn in Hlen. lia. }
  destruct (last_item_defined fs Hfs) as [ff Hlast]. rewrite Hlast in Hrun.
  destruct Hrun as (out & tv & Htv & Hrun).
  destruct (enterprise_value_defined fs tv w) as (ev & Hev & _).
  { intros i Hi. apply power_in_range; [lra|lra|lia]. }
  rewrite Hev in Hrun. destruct Hrun as (ps & _ & Hrun).
  rewrite Hrun. eexists. split; [reflexivity|].
  cbn [Valuation.cost_of_equity Valuation.cost_of_debt Valuation.wacc
       Valuation.forecasted_fcff Valuation.pv_fcff_list].
  split; [exact (proj1 Hce)|]. split; [exact (proj1 Hcd)|].
  split; [exact (proj1 Hwacc)|].
  split; [exact Hlen|]. now rewrite discounted_length.
Qed.

Lemma main_calculations_succeeds_witness :
  exists v,
    Run.outcome
      (main_calculations
         (Inputs.make "ACME" 0.042 0.05 3 0.025 None)
         (CompanyData.make "Acme" 1.2 3000 40 (Some 80) 100 (Some 21) (Some 10)
                           (Some 5) 100 50 15 0))
    = Ok v /\
    0 <= Valuation.cost_of_equity v /\
    0 <= Valuation.cost_of_debt v /\
    0 <= Valuation.wacc v /\
    length (Valuation.forecasted_fcff v) = Z.to_nat 3 /\
    length (Valuation.pv_fcff_list v) = Z.to_nat 3.
Proof.
  apply (main_calculations_succeeds
           (Inputs.make "ACME" 0.042 0.05 3 0.025 None)
           (CompanyData.make "Acme" 1.2 3000 40 (Some 80) 100 (Some 21)
                             (Some 10) (Some 5) 100 50 15 0)).
  - simpl. lia.
  - by_evaluation.
  - by_evaluation.
  - by_evaluation.
  - by_evaluation.
  - by_evaluation.
  - by_evaluation.
  - simpl. intros interest [= <-]. split; by_evaluation.
  - simpl. intros growth H. discriminate H.
Defined.

(** X4: a WACC that does not exceed the perpetual growth rate does not
    stop [main].  Whenever the calculations return, the error line of
    [calculate_terminal_value] has been printed exactly when
    [wacc <= perpetual_growth]; in that case the valuation goes on with
    a terminal value of 0, so the enterprise value is the sum of the
    discounted forecast cash flows alone. *)
Theorem main_continues_after_domain_error
    (inputs : Inputs.t) (company_data : CompanyData.t) (v : Valuation.t) :
  Run.outcome (main_calculations inputs company_data) = Ok v ->
  (Valuation.wacc v <= Inputs.perpetual_growth inputs ->
   Run.stdout (main_calculations inputs company_data)
   = [terminal_value_message] /\
   Valuation.terminal_value v = 0 /\
   Valuation.pv_terminal v == 0 /\
   Valuation.enterprise_value v == total_of (Valuation.pv_fcff_list v)) /\
  (Inputs.perpetual_growth inputs < Valuation.wacc v ->
   Run.stdout (main_calculations inputs company_data) = []).
Proof.
  intros Hv.
  destruct (main_inversion inputs company_data v Hv)
    as (ff & _ & Hnz & _ & _ & _ & _ & _ & _ & _ & Htv & _ & Hpvt & Hev & _).
  destruct (terminal_value_defined ff (Inputs.perpetual_growth inputs)
              (Valuation.wacc v)) as (out & tv & Htv' & Hle & Hlt).
  rewrite Htv in Htv'. injection Htv' as Hout Hval.
  split.
  - intros H. destruct (Hle H) as [-> ->].
    split; [exact Hout|]. split; [exact Hval|].
    assert (Hzero : Valuation.pv_terminal v == 0).
    { rewrite Hpvt, Hval. unfold Qdiv. ring. }
    split; [exact Hzero|]. rewrite Hev, Hzero. ring.
  - intros H. destruct (Hlt H) as [-> _]. exact Hout.
Qed.

Lemma main_continues_after_domain_error_witness :
  exists v,
    Run.outcome
      (main_calculations
         (Inputs.make "ACME" 0.01 0.01 2 0.05 None)
         (CompanyData.make "Acme" 1 3000 40 None 100 None None None 0 50 15 0))
    = Ok v /\
    Run.stdout
      (main_calculations
         (Inputs.make "ACME" 0.01 0.01 2 0.05 None)
         (CompanyData.make "Acme" 1 3000 40 None 100 None None None 0 50 15 0))
    = [terminal_value_message] /\
    Valuation.terminal_value v = 0 /\
    Valuation.pv_terminal v == 0 /\
    Valuation.enterprise_value v == total_of (Valuation.pv_fcff_list v).
Proof.
  eexists. split; [vm_compute; reflexivity|].
  eapply (proj1 (main_continues_after_domain_error
                   (Inputs.make "ACME" 0.01 0.01 2 0.05 None)
                   (CompanyData.make "Acme" 1 3000 40 None 100 None None None
                                     0 50 15 0) _ ltac:(vm_compute; reflexivity))).
  by_evaluation.
Defined.

(** X5: for a company without debt the WACC that [main] computes is the
    CAPM cost of equity [risk_free_rate + beta * equity_risk_premium],
    whatever its market capitalisation, and its cost of debt is 0. *)
Theorem main_debt_free_wacc
    (inputs : Inputs.t) (company_data : CompanyData.t) (v : Valuation.t) :
  Run.outcome (main_calculations inputs company_data) = Ok v ->
  CompanyData.total_debt company_data == 0 ->
  Valuation.cost_of_debt v = 0 /\
  Valuation.wacc v
  == Inputs.risk_free_rate inputs
     + CompanyData.beta company_data * Inputs.equity_risk_premium inputs.
Proof.
  intros Hv Hdebt.
  destruct (main_inversion inputs company_data v Hv)
    as (ff & _ & _ & _ & _ & Hce & Hcod & Hw & _).
  unfold calculate_cost_of_debt in Hcod.
  apply Qeq_bool_iff in Hdebt as Hb. rewrite Hb in Hcod.
  injection Hcod as Hcod. split; [now symmetry|].
  unfold calculate_wacc in Hw. cbv zeta in Hw.
  unfold calculate_cost_of_equity in Hce.
  destruct (Qeq_bool (CompanyData.market_cap company_data
                      + CompanyData.total_debt company_data) 0) eqn:Hsum.
  - injection Hw as <-. now rewrite Hce.
  - apply Qeq_bool_false in Hsum. rewrite !div_defined in Hw by exact Hsum.
    injection Hw as <-. rewrite Hce.
    assert (Hcap : ~ CompanyData.market_cap company_data == 0).
    { intros H. apply Hsum. rewrite H, Hdebt. reflexivity. }
    rewrite Hdebt. field. intros H. apply Hcap. lra.
Qed.

Lemma main_debt_free_wacc_witness :
  exists v,
    Run.outcome
      (main_calculations
         (Inputs.make "ACME" 0.042 0.05 3 0.025 None)
         (CompanyData.make "Acme" 1.2 3000 40 None 100 (Some 21) None (Some 5)
                           0 50 15 0))
    = Ok v /\
    Valuation.cost_of_debt v = 0 /\
    Valuation.wacc v == 0.042 + 1.2 * 0.05.
Proof.
  eexists. split; [vm_compute; reflexivity|].
  apply (main_debt_free_wacc
           (Inputs.make "ACME" 0.042 0.05 3 0.025 None)
           (CompanyData.make "Acme" 1.2 3000 40 None 100 (Some 21) None (Some 5)
                             0 50 15 0)).
  - vm_compute. reflexivity.
  - reflexivity.
Defined.

(** X6: the per-share value that [main] reports is consistent with the
    net-debt bridge: multiplied by the number of shares it gives back
    enterprise value less debt plus cash; without shares it is 0. *)
Theorem main_per_share_consistent
    (inputs : Inputs.t) (company_data : CompanyData.t) (v : Valuation.t) :
  Run.outcome (main_calculations inputs company_data) = Ok v ->
  (~ CompanyData.shares_outstanding company_data == 0 ->
   Valuation.intrinsic_value v * CompanyData.shares_outstanding company_data
   == Valuation.enterprise_value v - CompanyData.total_debt company_data
      + CompanyData.cash company_data) /\
  (CompanyData.shares_outstanding company_data == 0 ->
   Valuation.intrinsic_value v = 0).
Proof.
  intros Hv.
  destruct (main_inversion inputs company_data v Hv)
    as (ff & _ & _ & _ & _ & _ & _ & _ & _ & _ & _ & _ & _ & _ & Heq & Hps & _).
  unfold calculate_intrinsic_value_per_share in Hps. split.
  - intros Hshares. apply Qeq_bool_false in Hshares as Hb. rewrite Hb in Hps.
    rewrite div_defined in Hps by exact Hshares. injection Hps as <-.
    rewrite Heq. unfold calculate_equity_value. field. exact Hshares.
  - intros Hshares. apply Qeq_bool_iff in Hshares. rewrite Hshares in Hps.
    now injection Hps as <-.
Qed.

Lemma main_per_share_consistent_witness :
  exists v,
    Run.outcome
      (main_calculations
         (Inputs.make "ACME" 0.042 0.05 3 0.025 None)
         (CompanyData.make "Acme" 1.2 3000 40 None 100 (Some 21) None (Some 5)
                           100 50 15 0))
    = Ok v /\
    Valuation.intrinsic_value v * 40
    == Valuation.enterprise_value v - 100 + 50.
Proof.
  eexists. split; [vm_compute; reflexivity|].
  apply (proj1 (main_per_share_consistent
                  (Inputs.make "ACME" 0.042 0.05 3 0.025 None)
                  (CompanyData.make "Acme" 1.2 3000 40 None 100 (Some 21) None
                                    (Some 5) 100 50 15 0)
                  _ ltac:(vm_compute; reflexivity))).
  by_evaluation.
Defined.

(** ** SensitivityAnalyzer: the axes and the shape of the grid *)

Lemma linspace_7_lookup (start stop : Q) (k : nat) (x : Q) :
  Np.linspace start stop 7 !! k = Some x ->
  (k < 7)%nat /\
  x == start + inject_Z (Z.of_nat k) * (stop - start) / 6.
Proof.
  intros H.
  do 7 (destruct k as [|k];
        [cbn in H; injection H as <-; split; [lia|cbn; field]|]).
  discriminate H.
Qed.

(** X7: the two axes of the grid.  The WACC axis has seven evenly spaced
    points from [0.8 * wacc] to [1.2 * wacc]; the growth axis has seven
    evenly spaced points from [0.5 * g] to the smaller of [1.5 * g] and
    [0.9 * wacc]. *)
Theorem sensitivity_axes (perpetual_growth wacc : Q) :
  length (wacc_range wacc) = 7%nat /\
  length (growth_range perpetual_growth wacc) = 7%nat /\
  (forall (k : nat) (w : Q),
      wacc_range wacc !! k = Some w ->
      w == wacc * 0.8
           + inject_Z (Z.of_nat k) * (wacc * 1.2 - wacc * 0.8) / 6) /\
  (forall (k : nat) (g : Q),
      growth_range perpetual_growth wacc !! k = Some g ->
      g == perpetual_growth * 0.5
           + inject_Z (Z.of_nat k)
             * (Qmin (perpetual_growth * 1.5) (wacc * 0.9)
                - perpetual_growth * 0.5) / 6).
Proof.
  split; [apply linspace_length|]. split; [apply linspace_length|]. split.
  - intros k w H. now apply linspace_7_lookup in H as [_ H].
  - intros k g H. apply linspace_7_lookup in H as [_ H].
    rewrite H, min_is_Qmin. reflexivity.
Qed.

Lemma sensitivity_axes_witness :
  wacc_range 0.05 !! 6%nat = Some (0.05 * 1.2) /\
  0.05 * 1.2
  == 0.05 * 0.8 + inject_Z (Z.of_nat 6) * (0.05 * 1.2 - 0.05 * 0.8) / 6.
Proof.
  split; [reflexivity|].
  apply (proj1 (proj2 (proj2 (sensitivity_axes 0.04 0.05))) 6%nat).
  reflexivity.
Defined.

(** With a non-empty forecast the matrix is produced, and each of its
    entries is what the loop body computes for its pair of axis points. *)
Lemma sensitivity_matrix_table
    (fs : list Q) (perpetual_growth wacc total_debt cash shares_outstanding : Q) :
  fs <> [] ->
  exists m,
    sensitivity_matrix fs perpetual_growth wacc
                       total_debt cash shares_outstanding = Ok m /\
    forall (i j : nat) (w g : Q),
      wacc_range wacc !! i = Some w ->
      growth_range perpetual_growth wacc !! j = Some g ->
      exists c,
        Np.get_item m i j = Some c /\
        sensitivity_cell fs total_debt cash shares_outstanding w g = Ok c.
Proof.
  intros Hfs.
  set (cell := sensitivity_cell fs total_debt cash shares_outstanding).
  set (value := fun w g =>
                  match cell w g with Ok c => c | Raise _ => Np.NaN end).
  assert (Hcell : forall w g, cell w g = Ok (value w g)).
  { intros w g. unfold value.
    destruct (sensitivity_cell_total fs total_debt cash
                shares_outstanding w g Hfs) as [c Hc].
    fold cell in Hc. now rewrite Hc. }
  exists ((fun w => value w <$> growth_range perpetual_growth wacc)
            <$> wacc_range wacc).
  split.
  { unfold sensitivity_matrix. fold cell. cbv zeta.
    apply (wacc_loop_fills cell value Hcell _ _ []). }
  intros i j w g Hw Hg. exists (value w g).
  split; [now apply get_item_table|apply Hcell].
Qed.

Lemma axis_points (perpetual_growth wacc : Q) (i j : nat) :
  (i < 7)%nat -> (j < 7)%nat ->
  exists w g,
    wacc_range wacc !! i = Some w /\
    growth_range perpetual_growth wacc !! j = Some g /\
    w == wacc * 0.8 + inject_Z (Z.of_nat i) * (wacc * 1.2 - wacc * 0.8) / 6 /\
    g == perpetual_growth * 0.5
         + inject_Z (Z.of_nat j)
           * (Qmin (perpetual_growth * 1.5) (wacc * 0.9)
              - perpetual_growth * 0.5) / 6.
Proof.
  intros Hi Hj.
  destruct (lookup_lt_is_Some_2 (wacc_range wacc) i) as [w Hw].
  { unfold wacc_range. now rewrite linspace_length. }
  destruct (lookup_lt_is_Some_2 (growth_range perpetual_growth wacc) j) as [g Hg].
  { unfold growth_range. now rewrite linspace_length. }
  exists w, g. split; [exact Hw|]. split; [exact Hg|].
  apply linspace_7_lookup in Hw as [_ Hw].
  apply linspace_7_lookup in Hg as [_ Hg].
  split; [exact Hw|]. rewrite Hg, min_is_Qmin. reflexivity.
Qed.

(** Case analysis on an index below 7. *)
(** Evaluate the rank of an axis point once its index is known. *)
Ltac eval_rank H :=
  cbv [inject_Z Z.of_nat Pos.of_succ_nat Pos.succ] in H;
  unfold Qdiv in H; change (/ 6) with (1 # 6) in H.

Ltac index_cases i :=
  destruct i as [|i]; [|
  destruct i as [|i]; [|
  destruct i as [|i]; [|
  destruct i as [|i]; [|
  destruct i as [|i]; [|
  destruct i as [|i]; [|
  destruct i as [|i]; [|exfalso; lia]]]]]]].

(** X8: which cells of the grid can be invalid.  For a positive WACC
    above the perpetual growth rate, every growth rate of the grid stays
    below every WACC of rows 2 to 6, so with a non-zero share count all
    cells of those rows are numbers: the clamp at [0.9 * wacc] leaves
    only rows 0 and 1 exposed.  If moreover the growth rate is
    non-negative and [1.5 * g < 0.8 * wacc], the whole grid is made of
    numbers. *)
Theorem sensitivity_valid_rows
    (forecasted_fcff : list Q)
    (perpetual_growth wacc total_debt cash shares_outstanding : Q) :
  forecasted_fcff <> [] ->
  0 < wacc -> perpetual_growth < wacc -> ~ shares_outstanding == 0 ->
  exists m,
    sensitivity_matrix forecasted_fcff perpetual_growth wacc
                       total_debt cash shares_outstanding = Ok m /\
    (forall i j : nat, (2 <= i < 7)%nat -> (j < 7)%nat ->
       exists v, Np.get_item m i j = Some (Np.Fin v)) /\
    (0 <= perpetual_growth -> perpetual_growth * 1.5 < wacc * 0.8 ->
     forall i j : nat, (i < 7)%nat -> (j < 7)%nat ->
       exists v, Np.get_item m i j = Some (Np.Fin v)).
Proof.
  intros Hfs Hwacc Hbase Hshares.
  destruct (sensitivity_matrix_table forecasted_fcff perpetual_growth wacc
              total_debt cash shares_outstanding Hfs) as (m & Hm & Htable).
  exists m. split; [exact Hm|].
  pose proof (Q.le_min_l (perpetual_growth * 1.5) (wacc * 0.9)) as Hmin_l.
  pose proof (Q.le_min_r (perpetual_growth * 1.5) (wacc * 0.9)) as Hmin_r.
  assert (Hnumber : forall i j w g,
             wacc_range wacc !! i = Some w ->
             growth_range perpetual_growth wacc !! j = Some g ->
             0 < w -> g < w ->
             exists v, Np.get_item m i j = Some (Np.Fin v)).
  { intros i j w g Hw Hg Hpos Hlt.
    destruct (Htable i j w g Hw Hg) as (c & Hc & Hcell).
    destruct (sensitivity_cell_valid forecasted_fcff total_debt cash
                shares_outstanding w g Hfs Hlt ltac:(lra) Hshares)
      as (ff & v & _ & Hv & _).
    rewrite Hv in Hcell. injection Hcell as <-. eauto. }
  split.
  - intros i j [Hi2 Hi] Hj.
    destruct (axis_points perpetual_growth wacc i j Hi Hj)
      as (w & g & Hw & Hg & Ew & Eg).
    remember (Qmin (perpetual_growth * 1.5) (wacc * 0.9)) as top.
    apply (Hnumber i j w g Hw Hg).
    + index_cases i; eval_rank Ew; clear Eg; lra.
    + index_cases i; try (exfalso; lia); index_cases j;
      eval_rank Ew; eval_rank Eg; lra.
  - intros Hg0 Hsmall i j Hi Hj.
    destruct (axis_points perpetual_growth wacc i j Hi Hj)
      as (w & g & Hw & Hg & Ew & Eg).
    remember (Qmin (perpetual_growth * 1.5) (wacc * 0.9)) as top.
    apply (Hnumber i j w g Hw Hg).
    + index_cases i; eval_rank Ew; clear Eg; lra.
    + index_cases i; index_cases j; eval_rank Ew; eval_rank Eg; lra.
Qed.

Lemma sensitivity_valid_rows_witness :
  exists m,
    sensitivity_matrix [77.7; 81.585; 85.66425] 0.04 0.05 100 50 40 = Ok m /\
    (forall i j : nat, (2 <= i < 7)%nat -> (j < 7)%nat ->
       exists v, Np.get_item m i j = Some (Np.Fin v)) /\
    (0 <= 0.04 -> 0.04 * 1.5 < 0.05 * 0.8 ->
     forall i j : nat, (i < 7)%nat -> (j < 7)%nat ->
       exists v, Np.get_item m i j = Some (Np.Fin v)).
Proof.
  apply (sensitivity_valid_rows [77.7; 81.585; 85.66425] 0.04 0.05 100 50 40).
  - discriminate.
  - by_evaluation.
  - by_evaluation.
  - by_evaluation.
Defined.

(** X9: the grid does not apply the zero-share guard of
    [calculate_intrinsic_value_per_share].  For a cell with [w > g] and
    [1 + w] not 0, a share count of 0 leaves an infinity or [nan] in the
    cell, never a number, whereas the guarded function returns 0 for
    the same equity value. *)
Theorem sensitivity_cell_zero_shares
    (forecasted_fcff : list Q) (total_debt cash shares_outstanding w g : Q) :
  forecasted_fcff <> [] -> g < w -> ~ 1 + w == 0 ->
  shares_outstanding == 0 ->
  exists c,
    sensitivity_cell forecasted_fcff total_debt cash shares_outstanding w g
    = Ok c /\
    (forall v, c <> Np.Fin v) /\
    forall equity_value,
      calculate_intrinsic_value_per_share equity_value shares_outstanding
      = Ok 0.
Proof.
  intros Hfs Hgw Hw Hshares.
  destruct (last_item_defined forecasted_fcff Hfs) as [fcff_final Hlast].
  destruct (np_sum_discounted w forecasted_fcff Hw 0 0) as (total & Htotal & _).
  apply Qeq_bool_iff in Hshares as Hb.
  eexists. split; [|split].
  - unfold sensitivity_cell.
    apply Qlt_bool_true in Hgw as Hlt. rewrite Hlt, Hlast.
    unfold mbind, result_bind. cbv zeta. unfold Np.sum, Py.len.
    rewrite Htotal.
    rewrite (np_div_defined _ (w - g)) by lra.
    rewrite (np_div_defined (fcff_final * (1 + g) / (w - g)))
      by now apply Qpower_not_0.
    unfold Np.sub. cbn [Np.add Np.neg]. reflexivity.
  - intros v. cbn [Np.div]. rewrite Hb. clear Hb.
    destruct (Qeq_bool _ 0); [|destruct (Qlt_bool 0 _)];
      intros Hc; discriminate Hc.
  - intros equity_value. unfold calculate_intrinsic_value_per_share.
    now rewrite Hb.
Qed.

Lemma sensitivity_cell_zero_shares_witness :
  exists c,
    sensitivity_cell [77.7; 81.585; 85.66425] 100 50 0 0.05 0.04 = Ok c /\
    (forall v, c <> Np.Fin v) /\
    forall equity_value,
      calculate_intrinsic_value_per_share equity_value 0 = Ok 0.
Proof.
  apply (sensitivity_cell_zero_shares [77.7; 81.585; 85.66425] 100 50 0 0.05 0.04).
  - discriminate.
  - by_evaluation.
  - by_evaluation.
  - reflexivity.
Defined.

Lemma discounted_total_compat (w w' : Q) (fs : list Q) :
  w == w' ->
  forall start : Z,
    total_of (discounted w start fs) == total_of (discounted w' start fs).
Proof.
  intros Hw. induction fs as [|f fs IH]; intros start.
  - reflexivity.
  - unfold total_of in *. cbn [discounted fold_right].
    rewrite (IH (start + 1)%Z), Hw. reflexivity.
Qed.

(** X10: the centre of the heat map reproduces the headline valuation.
    When the base case is valid ([g < wacc]), the clamp of the growth
    axis is not active ([1.5 * g <= 0.9 * wacc]) and the discount
    factors of the base WACC are finite non-zero doubles, the cell in
    row 3 and column 3 holds the per-share value that the valuation
    functions return for the base WACC and growth rate themselves. *)
Theorem sensitivity_centre_cell
    (forecasted_fcff : list Q)
    (perpetual_growth wacc total_debt cash shares_outstanding : Q) :
  forecasted_fcff <> [] ->
  perpetual_growth < wacc ->
  perpetual_growth * 1.5 <= wacc * 0.9 ->
  (forall i : Z, (1 <= i <= Z.of_nat (length forecasted_fcff))%Z ->
     Py.finite_nonzero ((1 + wacc) ^ i)) ->
  ~ shares_outstanding == 0 ->
  exists m fcff_final terminal_value enterprise_value pv_fcff_list pv_terminal
         per_share v,
    sensitivity_matrix forecasted_fcff perpetual_growth wacc
                       total_debt cash shares_outstanding = Ok m /\
    Py.last_item forecasted_fcff = Ok fcff_final /\
    calculate_terminal_value fcff_final perpetual_growth wacc
    = ([], Ok terminal_value) /\
    calculate_enterprise_value forecasted_fcff terminal_value wacc
    = Ok (enterprise_value, pv_fcff_list, pv_terminal) /\
    calculate_intrinsic_value_per_share
      (calculate_equity_value enterprise_value total_debt cash)
      shares_outstanding
    = Ok per_share /\
    Np.get_item m 3 3 = Some (Np.Fin v) /\
    v == per_share.
Proof.
  intros Hfs Hbase Hclamp Hfinite Hshares.
  assert (Hlen : (1 <= Z.of_nat (length forecasted_fcff))%Z).
  { destruct forecasted_fcff; [contradiction|]. cbn [length]. lia. }
  assert (Hnz : ~ 1 + wacc == 0).
  { intros Hz. apply (finite_nonzero_not_0 _ (Hfinite 1%Z ltac:(lia))).
    now rewrite Qpower_1_r. }
  destruct (sensitivity_matrix_table forecasted_fcff perpetual_growth wacc
              total_debt cash shares_outstanding Hfs) as (m & Hm & Htable).
  destruct (axis_points perpetual_growth wacc 3 3 ltac:(lia) ltac:(lia))
    as (w3 & g3 & Hw & Hg & Ew & Eg).
  rewrite (Q.min_l _ _ Hclamp) in Eg.
  assert (Ew' : w3 == wacc) by (eval_rank Ew; lra).
  assert (Eg' : g3 == perpetual_growth) by (eval_rank Eg; lra).
  clear Ew Eg.
  destruct (Htable 3%nat 3%nat w3 g3 Hw Hg) as (c & Hc & Hcell).
  destruct (sensitivity_cell_valid forecasted_fcff total_debt cash
              shares_outstanding w3 g3 Hfs)
    as (ff & v & Hlast & Hv & Hformula).
  { rewrite Ew', Eg'. exact Hbase. }
  { rewrite Ew'. exact Hnz. }
  { exact Hshares. }
  destruct (valuation_chain forecasted_fcff total_debt cash shares_outstanding
              wacc perpetual_growth ff Hlast Hbase Hshares Hfinite)
    as (tv & ev & pvs & pvt & ps & Htv & Hev & Hps & Hsame).
  rewrite Hv in Hcell. injection Hcell as <-.
  exists m, ff, tv, ev, pvs, pvt, ps, v.
  repeat (split; [assumption|]).
  rewrite Hsame, Hformula.
  rewrite (discounted_total_compat w3 wacc forecasted_fcff Ew' 1).
  rewrite Ew', Eg'. reflexivity.
Qed.

Lemma sensitivity_centre_cell_witness :
  exists m fcff_final terminal_value enterprise_value pv_fcff_list pv_terminal
         per_share v,
    sensitivity_matrix [77.7; 81.585; 85.66425] 0.025 0.09 100 50 40 = Ok m /\
    Py.last_item [77.7; 81.585; 85.66425] = Ok fcff_final /\
    calculate_terminal_value fcff_final 0.025 0.09 = ([], Ok terminal_value) /\
    calculate_enterprise_value [77.7; 81.585; 85.66425] terminal_value 0.09
    = Ok (enterprise_value, pv_fcff_list, pv_terminal) /\
    calculate_intrinsic_value_per_share
      (calculate_equity_value enterprise_value 100 50) 40
    = Ok per_share /\
    Np.get_item m 3 3 = Some (Np.Fin v) /\
    v == per_share.
Proof.
  apply (sensitivity_centre_cell [77.7; 81.585; 85.66425] 0.025 0.09 100 50 40).
  - discriminate.
  - by_evaluation.
  - by_evaluation.
  - intros i Hi. apply power_in_range; [by_evaluation|by_evaluation|].
    cbn in Hi. lia.
  - by_evaluation.
Defined.

(** ** The highlighted cell *)

Lemma np_argmin_from_lt (best_idx idx : nat) (best x : Q) (l : list Q) :
  x < best ->
  np_argmin_from best_idx best idx (x :: l) = np_argmin_from idx x (S idx) l.
Proof.
  intros H. cbn [np_argmin_from]. apply Qlt_bool_true in H. now rewrite H.
Qed.

Lemma np_argmin_from_ge (best_idx idx : nat) (best x : Q) (l : list Q) :
  best <= x ->
  np_argmin_from best_idx best idx (x :: l)
  = np_argmin_from best_idx best (S idx) l.
Proof.
  intros H. cbn [np_argmin_from]. apply Qlt_bool_false in H. now rewrite H.
Qed.

(** Seven distances that decrease down to the fourth and do not go below
    it afterwards have their first minimum at index 3. *)
Lemma np_argmin_centre (d0 d1 d2 d3 d4 d5 d6 : Q) :
  d1 < d0 -> d2 < d1 -> d3 < d2 -> d3 <= d4 -> d3 <= d5 -> d3 <= d6 ->
  np_argmin [d0; d1; d2; d3; d4; d5; d6] = Some 3%nat.
Proof.
  intros H1 H2 H3 H4 H5 H6. unfold np_argmin.
  rewrite np_argmin_from_lt by exact H1.
  rewrite np_argmin_from_lt by exact H2.
  rewrite np_argmin_from_lt by exact H3.
  rewrite np_argmin_from_ge by exact H4.
  rewrite np_argmin_from_ge by exact H5.
  rewrite np_argmin_from_ge by exact H6.
  reflexivity.
Qed.

Lemma abs_lt_scaled (t x y a b : Q) :
  ~ t == 0 -> x == t * a -> y == t * b -> Qabs a < Qabs b ->
  Qabs x < Qabs y.
Proof.
  intros Ht Hx Hy Hab. rewrite Hx, Hy, !Qabs_Qmult.
  apply Qmult_lt_l; [|exact Hab].
  pose proof (Qabs_nonneg t) as Hn.
  apply Qle_lteq in Hn as [Hpos|Hzero]; [exact Hpos|].
  exfalso. apply Ht.
  destruct (Qlt_le_dec t 0) as [Hneg|Hge].
  - rewrite Qabs_neg in Hzero by lra. lra.
  - rewrite Qabs_pos in Hzero by exact Hge. lra.
Qed.

Lemma abs_le_scaled (t x y a b : Q) :
  x == t * a -> y == t * b -> Qabs a <= Qabs b -> Qabs x <= Qabs y.
Proof.
  intros Hx Hy Hab. rewrite Hx, Hy, !Qabs_Qmult.
  rewrite (Qmult_comm (Qabs t) (Qabs a)), (Qmult_comm (Qabs t) (Qabs b)).
  apply Qmult_le_compat_r; [exact Hab|apply Qabs_nonneg].
Qed.

Lemma linspace_7 (start stop : Q) :
  Np.linspace start stop 7
  = [0 * ((stop - start) / 6) + start; 1 * ((stop - start) / 6) + start;
     2 * ((stop - start) / 6) + start; 3 * ((stop - start) / 6) + start;
     4 * ((stop - start) / 6) + start; 5 * ((stop - start) / 6) + start;
     stop].
Proof. reflexivity. Qed.

(** X11: where the highlight of the heat map lands.  For a non-zero
    WACC the highlighted row is row 3, the middle of the WACC axis; for a
    non-zero growth rate whose axis is not clamped
    ([1.5 * g <= 0.9 * wacc]) the highlighted column is column 3. *)
Theorem highlighted_cell_is_centre (perpetual_growth wacc : Q) :
  (~ wacc == 0 -> current_wacc_idx wacc = Some 3%nat) /\
  (~ perpetual_growth == 0 -> perpetual_growth * 1.5 <= wacc * 0.9 ->
   current_growth_idx perpetual_growth wacc = Some 3%nat).
Proof.
  split.
  - intros Hw. unfold current_wacc_idx, wacc_range.
    rewrite linspace_7. cbn [fmap list_fmap].
    apply np_argmin_centre.
    + apply (abs_lt_scaled wacc _ _ (-2 # 15) (-1 # 5));
        [exact Hw|field|field|by_evaluation].
    + apply (abs_lt_scaled wacc _ _ (-1 # 15) (-2 # 15));
        [exact Hw|field|field|by_evaluation].
    + apply (abs_lt_scaled wacc _ _ 0 (-1 # 15));
        [exact Hw|field|field|by_evaluation].
    + apply (abs_le_scaled wacc _ _ 0 (1 # 15)); [field|field|by_evaluation].
    + apply (abs_le_scaled wacc _ _ 0 (2 # 15)); [field|field|by_evaluation].
    + apply (abs_le_scaled wacc _ _ 0 (1 # 5)); [field|field|by_evaluation].
  - intros Hg Hclamp. unfold current_growth_idx, growth_range, Py.min.
    apply Qlt_bool_false in Hclamp. rewrite Hclamp.
    rewrite linspace_7. cbn [fmap list_fmap].
    apply np_argmin_centre.
    + apply (abs_lt_scaled perpetual_growth _ _ (-1 # 3) (-1 # 2));
        [exact Hg|field|field|by_evaluation].
    + apply (abs_lt_scaled perpetual_growth _ _ (-1 # 6) (-1 # 3));
        [exact Hg|field|field|by_evaluation].
    + apply (abs_lt_scaled perpetual_growth _ _ 0 (-1 # 6));
        [exact Hg|field|field|by_evaluation].
    + apply (abs_le_scaled perpetual_growth _ _ 0 (1 # 6));
        [field|field|by_evaluation].
    + apply (abs_le_scaled perpetual_growth _ _ 0 (1 # 3));
        [field|field|by_evaluation].
    + apply (abs_le_scaled perpetual_growth _ _ 0 (1 # 2));
        [field|field|by_evaluation].
Qed.

Lemma highlighted_cell_is_centre_witness :
  current_wacc_idx 0.09 = Some 3%nat /\
  current_growth_idx 0.025 0.09 = Some 3%nat.
Proof.
  split.
  - apply (proj1 (highlighted_cell_is_centre 0.025 0.09)). by_evaluation.
  - apply (proj2 (highlighted_cell_is_centre 0.025 0.09)); by_evaluation.
Defined.

(** With the clamp active the highlight leaves the centre: for a WACC of
    5% and a growth rate of 4% the growth axis stops at 4.5% and the
    nearest point to 4% is in column 5. *)
Example highlighted_cell_clamped :
  current_growth_idx 0.04 0.05 = Some 5%nat.
Proof. reflexivity. Qed.

(** X12: along a row of the grid the value rises with the growth rate.
    With a positive final forecast cash flow, [w > -1] and a positive
    share count, two growth rates [g1 < g2] below [w] give two numbers,
    the second strictly larger than the first. *)
Theorem sensitivity_cell_increasing_in_growth
    (forecasted_fcff : list Q) (fcff_final : Q)
    (total_debt cash shares_outstanding w g1 g2 : Q) :
  Py.last_item forecasted_fcff = Ok fcff_final ->
  0 < fcff_final -> -1 < w -> 0 < shares_outstanding ->
  g1 < g2 -> g2 < w ->
  exists v1 v2,
    sensitivity_cell forecasted_fcff total_debt cash shares_outstanding w g1
    = Ok (Np.Fin v1) /\
    sensitivity_cell forecasted_fcff total_debt cash shares_outstanding w g2
    = Ok (Np.Fin v2) /\
    v1 < v2.
Proof.
  intros Hlast Hff Hw Hshares H12 H2w.
  assert (Hfs : forecasted_fcff <> []).
  { intros ->. discriminate Hlast. }
  assert (Hnz : ~ 1 + w == 0) by lra.
  assert (Hsh : ~ shares_outstanding == 0) by lra.
  destruct (sensitivity_cell_valid forecasted_fcff total_debt cash
              shares_outstanding w g1 Hfs ltac:(lra) Hnz Hsh)
    as (ff1 & v1 & Hl1 & Hv1 & Hf1).
  destruct (sensitivity_cell_valid forecasted_fcff total_debt cash
              shares_outstanding w g2 Hfs H2w Hnz Hsh)
    as (ff2 & v2 & Hl2 & Hv2 & Hf2).
  rewrite Hlast in Hl1, Hl2. injection Hl1 as <-. injection Hl2 as <-.
  exists v1, v2. split; [exact Hv1|]. split; [exact Hv2|].
  set (P := (1 + w) ^ Z.of_nat (length forecasted_fcff)) in *.
  assert (HP : 0 < P) by (apply Qpower_0_lt; lra).
  set (S := total_of (discounted w 1 forecasted_fcff)) in *.
  assert (Hgap :
            v2 - v1
            == fcff_final * ((1 + w) * (g2 - g1))
               * (/ ((w - g1) * (w - g2)) * (/ P * / shares_outstanding))).
  { rewrite Hf1, Hf2. field. repeat split; lra. }
  assert (0 < (1 + w) * (g2 - g1)) by (apply Qmult_lt_0_compat; lra).
  assert (0 < fcff_final * ((1 + w) * (g2 - g1)))
    by now apply Qmult_lt_0_compat.
  assert (0 < (w - g1) * (w - g2)) by (apply Qmult_lt_0_compat; lra).
  assert (0 < / ((w - g1) * (w - g2))) by now apply Qinv_lt_0_compat.
  assert (0 < / P) by now apply Qinv_lt_0_compat.
  assert (0 < / shares_outstanding) by now apply Qinv_lt_0_compat.
  assert (0 < / P * / shares_outstanding) by now apply Qmult_lt_0_compat.
  assert (0 < / ((w - g1) * (w - g2)) * (/ P * / shares_outstanding))
    by now apply Qmult_lt_0_compat.
  assert (0 < v2 - v1).
  { rewrite Hgap. now apply Qmult_lt_0_compat. }
  lra.
Qed.

Lemma sensitivity_cell_increasing_in_growth_witness :
  exists v1 v2,
    sensitivity_cell [77.7; 81.585; 85.66425] 100 50 40 0.09 0.02
    = Ok (Np.Fin v1) /\
    sensitivity_cell [77.7; 81.585; 85.66425] 100 50 40 0.09 0.03
    = Ok (Np.Fin v2) /\
    v1 < v2.
Proof.
  apply (sensitivity_cell_increasing_in_growth
           [77.7; 81.585; 85.66425] 85.66425 100 50 40 0.09 0.02 0.03).
  - reflexivity.
  - by_evaluation.
  - by_evaluation.
  - by_evaluation.
  - by_evaluation.
  - by_evaluation.
Defined.

(** ** CashFlowEngine and CapitalCostEngine: composition *)

(** A power of a base of at least 1 neither rounds to zero nor, when
    [**] returns, to an infinity: what is returned is the power. *)
Lemma pow_at_least_one (x : Q) (n : Z) (growth : Q) :
  1 <= x -> (0 <= n)%Z -> Py.pow x n = Ok growth -> growth = x ^ n.
Proof.
  intros Hx Hn Hpow.
  assert (Hone : 1 <= x ^ n) by (apply Qpower_1_le; assumption).
  assert (Hsmall : Py.underflow_threshold < 1) by by_evaluation.
  destruct (pow_cases x n Hn) as [[_ H]|[[Hlow _]|[_ H]]].
  - rewrite H in Hpow. now injection Hpow as <-.
  - rewrite Qabs_pos in Hlow by lra. lra.
  - rewrite H in Hpow. discriminate Hpow.
Qed.

(** X13: the forecast is a geometric progression.  A horizon of zero or
    fewer years gives the empty list rather than an error; the only
    error [forecast_fcff] raises is [OverflowError], with at least one
    year; and whenever it returns with a growth rate [g >= 0] (the
    override or the default 0.05), there is one amount per year, the
    first amount is [base_fcff * (1 + g)] and every amount is [1 + g]
    times the one before it. *)
Theorem forecast_fcff_progression
    (base_fcff : Q) (forecast_years : Z) (short_term_growth : option Q) :
  ((forecast_years <= 0)%Z ->
   forecast_fcff base_fcff forecast_years short_term_growth = Ok []) /\
  (forall e,
      forecast_fcff base_fcff forecast_years short_term_growth = Raise e ->
      e = OverflowError /\ (1 <= forecast_years)%Z) /\
  (forall forecasted,
      forecast_fcff base_fcff forecast_years short_term_growth = Ok forecasted ->
      0 <= default 0.05 short_term_growth ->
      length forecasted = Z.to_nat forecast_years /\
      (forall first,
          forecasted !! 0%nat = Some first ->
          first == base_fcff * (1 + default 0.05 short_term_growth)) /\
      (forall (i : nat) (x y : Q),
          forecasted !! i = Some x -> forecasted !! S i = Some y ->
          y == x * (1 + default 0.05 short_term_growth))).
Proof.
  split; [|split].
  - apply forecast_fcff_empty.
  - intros e He. split; [now apply forecast_fcff_raises in He|].
    destruct (Z_le_gt_dec forecast_years 0) as [Hle|Hgt]; [|lia].
    rewrite forecast_fcff_empty in He by exact Hle. discriminate He.
  - intros forecasted Hok Hg.
    apply forecast_fcff_inversion in Hok as [Hlen Hlookup].
    split; [exact Hlen|].
    assert (Hentry : forall (i : nat) (x : Q),
               forecasted !! i = Some x ->
               x = base_fcff
                   * (1 + default 0.05 short_term_growth) ^ (1 + Z.of_nat i)).
    { intros i x Hx. destruct (Hlookup i x Hx) as (growth & Hpow & ->).
      apply pow_at_least_one in Hpow; [now rewrite Hpow|lra|lia]. }
    split.
    + intros first Hfirst. apply Hentry in Hfirst. rewrite Hfirst.
      change (1 + Z.of_nat 0)%Z with 1%Z. now rewrite Qpower_1_r.
    + intros i x y Hx Hy. apply Hentry in Hx, Hy. rewrite Hx, Hy.
      replace (1 + Z.of_nat (S i))%Z with ((1 + Z.of_nat i) + 1)%Z by lia.
      rewrite Qpower_plus' by lia. rewrite Qpower_1_r. ring.
Qed.

Lemma forecast_fcff_progression_witness :
  forecast_fcff 74.0 0 None = Ok [] /\
  exists forecasted,
    forecast_fcff 74.0 3 (Some 0.08) = Ok forecasted /\
    length forecasted = Z.to_nat 3 /\
    (forall first,
        forecasted !! 0%nat = Some first ->
        first == 74.0 * (1 + default 0.05 (Some 0.08))) /\
    (forall (i : nat) (x y : Q),
        forecasted !! i = Some x -> forecasted !! S i = Some y ->
        y == x * (1 + default 0.05 (Some 0.08))).
Proof.
  split.
  - apply (proj1 (forecast_fcff_progression 74.0 0 None)). lia.
  - eexists. split; [vm_compute; reflexivity|].
    apply (proj2 (proj2 (forecast_fcff_progression 74.0 3 (Some 0.08)))).
    + vm_compute. reflexivity.
    + by_evaluation.
Defined.

(** X14: the tax shield on debt.  Whatever the EBIT and tax expense, the
    rate of [calculate_tax_rate] fed to [calculate_cost_of_debt] removes
    at most half of a non-negative pre-tax cost: with a non-zero debt and
    interest expense the after-tax cost lies between half of
    [interest / debt] and the whole of it, and with the fallback pre-tax
    rate it lies between 2% and 4%. *)
Theorem after_tax_cost_of_debt_bounds
    (ebit : Q) (tax_expense : option Q)
    (total_debt : Q) (interest_expense : option Q) :
  ~ total_debt == 0 ->
  exists tax_rate cost,
    calculate_tax_rate ebit tax_expense = Ok tax_rate /\
    calculate_cost_of_debt total_debt interest_expense tax_rate = Ok cost /\
    (forall interest,
        interest_expense = Some interest -> ~ interest == 0 ->
        0 <= interest / total_debt ->
        interest / total_debt * 0.5 <= cost <= interest / total_debt) /\
    (interest_expense = None \/
     (exists interest, interest_expense = Some interest /\ interest == 0) ->
     0.02 <= cost <= 0.04).
Proof.
  intros Hdebt.
  destruct (tax_rate_bounded ebit tax_expense) as (tr & Htr & Hlo & Hhi).
  exists tr. unfold calculate_cost_of_debt.
  apply Qeq_bool_false in Hdebt as Hb. rewrite Hb.
  destruct interest_expense as [interest|].
  - destruct (Qeq_bool interest 0) eqn:Hi.
    + eexists. split; [exact Htr|]. split; [reflexivity|]. split.
      * intros i [= <-] Hnz. apply Qeq_bool_iff in Hi. contradiction.
      * intros _. split; lra.
    + rewrite div_defined by exact Hdebt.
      eexists. split; [exact Htr|]. split; [reflexivity|]. split.
      * intros i [= <-] _ Hpos.
        remember (interest / total_debt) as pretax.
        assert (0 <= pretax * (0.5 - tr)) by (apply Qmult_le_0_compat; lra).
        assert (0 <= pretax * tr) by (apply Qmult_le_0_compat; lra).
        split; lra.
      * intros [H|(i & [= <-] & Hz)]; [discriminate H|].
        apply Qeq_bool_false in Hi. contradiction.
  - eexists. split; [exact Htr|]. split; [reflexivity|]. split.
    + intros i H. discriminate H.
    + intros _. split; lra.
Qed.

Lemma after_tax_cost_of_debt_bounds_witness :
  exists tax_rate cost,
    calculate_tax_rate 100 (Some 30) = Ok tax_rate /\
    calculate_cost_of_debt 200 (Some 10) tax_rate = Ok cost /\
    (forall interest,
        Some 10 = Some interest -> ~ interest == 0 ->
        0 <= interest / 200 ->
        interest / 200 * 0.5 <= cost <= interest / 200) /\
    (Some 10 = None \/
     (exists interest, Some 10 = Some interest /\ interest == 0) ->
     0.02 <= cost <= 0.04).
Proof.
  apply (after_tax_cost_of_debt_bounds 100 (Some 30) 200 (Some 10)).
  by_evaluation.
Defined.

(** ** Console input *)

Lemma run_bind_returned {A B : Type} (m : Io.t A) (f : A -> Io.t B)
    (w w1 : Io.world) (a : A) :
  Io.run m w = (Io.Returned a, w1) ->
  Io.run (m ≫= f) w = Io.run (f a) w1.
Proof.
  intros H. unfold mbind, Io.io_bind. cbn [Io.run]. now rewrite H.
Qed.

Lemma run_bind_inversion {A B : Type} (m : Io.t A) (f : A -> Io.t B)
    (w w' : Io.world) (b : B) :
  Io.run (m ≫= f) w = (Io.Returned b, w') ->
  exists a w1,
    Io.run m w = (Io.Returned a, w1) /\ Io.run (f a) w1 = (Io.Returned b, w').
Proof.
  unfold mbind, Io.io_bind. cbn [Io.run].
  destruct (Io.run m w) as [[a| | |] w1]; [eauto|discriminate..].
Qed.

Lemma run_print (text : string) (w : Io.world) :
  Io.run (Io.print text) w
  = (Io.Returned tt,
     Io.World (Io.stdin w) (Io.stdout w ++ [(text ++ Io.newline)%string])).
Proof. reflexivity. Qed.

Lemma run_input (prompt line : string) (rest out : list string) :
  Io.run (Io.input prompt) (Io.World (line :: rest) out)
  = (Io.Returned line, Io.World rest (out ++ [prompt])).
Proof. reflexivity. Qed.

Lemma input_inversion (prompt line : string) (w w1 : Io.world) :
  Io.run (Io.input prompt) w = (Io.Returned line, w1) ->
  Io.stdin w = line :: Io.stdin w1.
Proof.
  destruct w as [[|l rest] out]; cbn; [discriminate|].
  now intros [= -> <-].
Qed.

Lemma run_invalid_input {A : Type} (name message : string) (w : Io.world) :
  Io.run (invalid_input (A := A) name message) w
  = (Io.Exited 1,
     Io.World (Io.stdin w)
       (Io.stdout w
        ++ [(("Error: Invalid input for " ++ name ++ ". " ++ message)
             ++ Io.newline)%string])).
Proof. reflexivity. Qed.

Lemma validate_number_inversion
    (b : builtins) (value name : string) (w w1 : Io.world) (num : Q) :
  Io.run (validate_positive_number b value name) w = (Io.Returned num, w1) ->
  py_float b value = inr num /\ 0 <= num /\ w1 = w.
Proof.
  unfold validate_positive_number.
  destruct (py_float b value) as [[|[|]|message]|x].
  - discriminate.
  - rewrite run_invalid_input. discriminate.
  - discriminate.
  - rewrite run_invalid_input. discriminate.
  - destruct (Qlt_bool x 0) eqn:Hx.
    + rewrite run_invalid_input. discriminate.
    + apply Qlt_bool_false in Hx. cbn. now intros [= <- <-].
Qed.

Lemma validate_integer_inversion
    (b : builtins) (value name : string) (w w1 : Io.world) (num : Z) :
  Io.run (validate_positive_integer b value name) w = (Io.Returned num, w1) ->
  py_int b value = inr num /\ (1 <= num)%Z /\ w1 = w.
Proof.
  unfold validate_positive_integer.
  destruct (py_int b value) as [message|x].
  - rewrite run_invalid_input. discriminate.
  - destruct (x <=? 0)%Z eqn:Hx.
    + rewrite run_invalid_input. discriminate.
    + apply Z.leb_gt in Hx. cbn. intros [= <- <-]. repeat split. lia.
Qed.

(** X15: the two validators.  [validate_positive_number] returns the
    parsed number, printing nothing, exactly when the text parses to a
    finite number that is not negative (0 is accepted); a text that
    [float] reads as [nan] or as the positive infinity passes the test
    [num < 0] as well, and the function goes on with it, printing
    nothing.  [validate_positive_integer] returns the parsed integer
    exactly when the text parses to an integer of at least 1 (0 is
    rejected).  A text that does not parse, a negative number, the
    negative infinity and an integer below 1 make them print one line
    starting with [Error: Invalid input for] and leave the program with
    exit status 1. *)
Theorem validators_spec (b : builtins) (value name : string) (w : Io.world) :
  (forall num,
      Io.run (validate_positive_number b value name) w = (Io.Returned num, w)
      <-> py_float b value = inr num /\ 0 <= num) /\
  (Io.run (validate_positive_number b value name) w = (Io.NotFinite, w)
   <-> py_float b value = inl Nan \/ py_float b value = inl (Infinity false)) /\
  (forall num,
      Io.run (validate_positive_integer b value name) w = (Io.Returned num, w)
      <-> py_int b value = inr num /\ (1 <= num)%Z) /\
  ((exists message, py_float b value = inl (ValueError message)) \/
   py_float b value = inl (Infinity true) \/
   (exists num, py_float b value = inr num /\ num < 0) ->
   exists message,
     Io.run (validate_positive_number b value name) w
     = (Io.Exited 1,
        Io.World (Io.stdin w)
          (Io.stdout w
           ++ [(("Error: Invalid input for " ++ name ++ ". " ++ message)
                ++ Io.newline)%string]))) /\
  ((forall num, py_int b value = inr num -> (num <= 0)%Z) ->
   exists message,
     Io.run (validate_positive_integer b value name) w
     = (Io.Exited 1,
        Io.World (Io.stdin w)
          (Io.stdout w
           ++ [(("Error: Invalid input for " ++ name ++ ". " ++ message)
                ++ Io.newline)%string]))).
Proof.
  split; [|split; [|split; [|split]]].
  - intros num. split.
    + intros H. apply validate_number_inversion in H. tauto.
    + intros [Hparse Hnum]. unfold validate_positive_number.
      rewrite Hparse. apply Qlt_bool_false in Hnum. now rewrite Hnum.
  - unfold validate_positive_number.
    destruct (py_float b value) as [[|[|]|message]|x].
    + split; [now left|reflexivity].
    + rewrite run_invalid_input.
      split; [discriminate|intros [H|H]; discriminate H].
    + split; [now right|reflexivity].
    + rewrite run_invalid_input.
      split; [discriminate|intros [H|H]; discriminate H].
    + split; [|intros [H|H]; discriminate H].
      destruct (Qlt_bool x 0); [rewrite run_invalid_input|]; discriminate.
  - intros num. split.
    + intros H. apply validate_integer_inversion in H. tauto.
    + intros [Hparse Hnum]. unfold validate_positive_integer.
      rewrite Hparse.
      assert (Hb : (num <=? 0)%Z = false) by (apply Z.leb_gt; lia).
      now rewrite Hb.
  - unfold validate_positive_number.
    intros [[message Hparse]|[Hparse|(num & Hparse & Hneg)]]; rewrite Hparse.
    + exists message. apply run_invalid_input.
    + eexists. apply run_invalid_input.
    + apply Qlt_bool_true in Hneg. rewrite Hneg.
      eexists. apply run_invalid_input.
  - intros Hbad. unfold validate_positive_integer.
    destruct (py_int b value) as [message|x].
    + exists message. apply run_invalid_input.
    + specialize (Hbad x eq_refl). apply Z.leb_le in Hbad.
      rewrite Hbad. eexists. apply run_invalid_input.
Qed.

Lemma print_inversion (text : string) (w w1 : Io.world) (x : unit) :
  Io.run (Io.print text) w = (Io.Returned x, w1) ->
  Io.stdin w1 = Io.stdin w.
Proof. rewrite run_print. now intros [= _ <-]. Qed.

Lemma ret_inversion {A : Type} (a a' : A) (w w1 : Io.world) :
  Io.run (mret a) w = (Io.Returned a', w1) -> a' = a /\ w1 = w.
Proof. cbn. now intros [= <- <-]. Qed.

(** X16: what [get_user_inputs] can return.  Whenever it returns a
    dictionary of finite numbers, the ticker is not empty, the two rates
    and the perpetual growth rate are non-negative, the forecast horizon
    is at least one year, and a short-term growth override, when
    present, is strictly positive (an override of 0 is dropped); six or
    seven lines of input were read.  (An answer that [float] reads as
    [nan] or as the positive infinity is accepted too: that run ends in
    [Io.NotFinite], about which nothing is said here.) *)
Theorem get_user_inputs_returns_valid
    (b : builtins) (w w' : Io.world) (inputs : Inputs.t) :
  Io.run (get_user_inputs b) w = (Io.Returned inputs, w') ->
  Inputs.ticker inputs <> EmptyString /\
  0 <= Inputs.risk_free_rate inputs /\
  0 <= Inputs.equity_risk_premium inputs /\
  (1 <= Inputs.forecast_years inputs)%Z /\
  0 <= Inputs.perpetual_growth inputs /\
  (forall growth, Inputs.short_term_growth inputs = Some growth -> 0 < growth) /\
  exists consumed,
    Io.stdin w = consumed ++ Io.stdin w' /\
    (length consumed = 6%nat \/ length consumed = 7%nat).
Proof.
  unfold get_user_inputs. intros H.
  apply run_bind_inversion in H as (? & w1 & P1 & H).
  apply run_bind_inversion in H as (? & w2 & P2 & H).
  apply run_bind_inversion in H as (? & w3 & P3 & H).
  apply run_bind_inversion in H as (l1 & w4 & I1 & H).
  cbv zeta in H.
  apply run_bind_inversion in H as (? & w5 & T & H).
  apply run_bind_inversion in H as (l2 & w6 & I2 & H).
  apply run_bind_inversion in H as (rf & w7 & V2 & H).
  apply run_bind_inversion in H as (l3 & w8 & I3 & H).
  apply run_bind_inversion in H as (erp & w9 & V3 & H).
  apply run_bind_inversion in H as (l4 & w10 & I4 & H).
  apply run_bind_inversion in H as (years & w11 & V4 & H).
  apply run_bind_inversion in H as (l5 & w12 & I5 & H).
  apply run_bind_inversion in H as (growth & w13 & V5 & H).
  apply run_bind_inversion in H as (l6 & w14 & I6 & H).
  apply run_bind_inversion in H as (stg & w15 & G & H).
  apply ret_inversion in H as [-> <-].
  apply print_inversion in P1, P2, P3.
  apply input_inversion in I1, I2, I3, I4, I5, I6.
  apply validate_number_inversion in V2 as (_ & Hrf & ->).
  apply validate_number_inversion in V3 as (_ & Herp & ->).
  apply validate_integer_inversion in V4 as (_ & Hyears & ->).
  apply validate_number_inversion in V5 as (_ & Hgrowth & ->).
  assert (Hticker : str_upper b (str_strip b l1) <> EmptyString /\ w5 = w4).
  { destruct (String.eqb (str_upper b (str_strip b l1)) "") eqn:E.
    - apply run_bind_inversion in T as (? & ? & _ & T). discriminate T.
    - apply ret_inversion in T as [_ ->]. split; [|reflexivity].
      intros Hempty. rewrite Hempty in E. discriminate E. }
  destruct Hticker as [Hticker ->].
  cbn [Inputs.ticker Inputs.risk_free_rate Inputs.equity_risk_premium
       Inputs.forecast_years Inputs.perpetual_growth Inputs.short_term_growth].
  split; [exact Hticker|].
  split; [apply Qle_shift_div_l; lra|].
  split; [apply Qle_shift_div_l; lra|].
  split; [exact Hyears|].
  split; [apply Qle_shift_div_l; lra|].
  assert (Hstg :
            (stg = None /\ w' = w14) \/
            (exists l7 s, stg = Some s /\ 0 <= s /\
                          Io.stdin w14 = l7 :: Io.stdin w')).
  { destruct (String.eqb (str_lower b (str_strip b l6)) "y").
    - right.
      apply run_bind_inversion in G as (l7 & w16 & I7 & G).
      apply run_bind_inversion in G as (s & w17 & V7 & G).
      apply ret_inversion in G as [-> ->].
      apply validate_number_inversion in V7 as (_ & Hs & ->).
      apply input_inversion in I7. eauto.
    - left. now apply ret_inversion in G as [-> ->]. }
  split.
  - intros g Hg. destruct Hstg as [[-> _]|(l7 & s & -> & Hs & _)];
      [discriminate Hg|].
    destruct (Qeq_bool s 0) eqn:E; [discriminate Hg|].
    apply Qeq_bool_false in E. injection Hg as <-.
    apply Qlt_shift_div_l; lra.
  - rewrite P1, P2, P3 in *. rewrite I1, I2, I3, I4, I5, I6.
    destruct Hstg as [[_ ->]|(l7 & s & _ & _ & ->)].
    + exists [l1; l2; l3; l4; l5; l6]. split; [reflexivity|now left].
    + exists [l1; l2; l3; l4; l5; l6; l7]. split; [reflexivity|now right].
Qed.

Lemma run_validate_number
    (b : builtins) (value name : string) (w : Io.world) (num : Q) :
  py_float b value = inr num -> 0 <= num ->
  Io.run (validate_positive_number b value name) w = (Io.Returned num, w).
Proof.
  intros Hparse Hnum. unfold validate_positive_number.
  rewrite Hparse. apply Qlt_bool_false in Hnum. now rewrite Hnum.
Qed.

Lemma run_validate_integer
    (b : builtins) (value name : string) (w : Io.world) (num : Z) :
  py_int b value = inr num -> (1 <= num)%Z ->
  Io.run (validate_positive_integer b value name) w = (Io.Returned num, w).
Proof.
  intros Hparse Hnum. unfold validate_positive_integer.
  rewrite Hparse.
  assert (Hb : (num <=? 0)%Z = false) by (apply Z.leb_gt; lia).
  now rewrite Hb.
Qed.

(** X17: [get_user_inputs] on seven well-formed answers, the sixth being
    [y].  The ticker is the first answer stripped and upper-cased, the
    rates are the percentages divided by 100, the horizon is the integer
    read, and exactly seven lines are consumed.  A custom growth that is
    not 0 becomes the override [s / 100]; a custom growth of 0 is
    discarded, so that the forecast then grows at the default 5% and not
    at 0%. *)
Theorem get_user_inputs_reads
    (b : builtins) (l1 l2 l3 l4 l5 l6 l7 : string) (rest out : list string)
    (r e g s : Q) (n : Z) :
  str_upper b (str_strip b l1) <> EmptyString ->
  py_float b (str_strip b l2) = inr r -> 0 <= r ->
  py_float b (str_strip b l3) = inr e -> 0 <= e ->
  py_int b (str_strip b l4) = inr n -> (1 <= n)%Z ->
  py_float b (str_strip b l5) = inr g -> 0 <= g ->
  str_lower b (str_strip b l6) = "y"%string ->
  py_float b (str_strip b l7) = inr s -> 0 <= s ->
  exists inputs out',
    Io.run (get_user_inputs b)
           (Io.World (l1 :: l2 :: l3 :: l4 :: l5 :: l6 :: l7 :: rest) out)
    = (Io.Returned inputs, Io.World rest out') /\
    Inputs.ticker inputs = str_upper b (str_strip b l1) /\
    Inputs.risk_free_rate inputs = r / 100 /\
    Inputs.equity_risk_premium inputs = e / 100 /\
    Inputs.forecast_years inputs = n /\
    Inputs.perpetual_growth inputs = g / 100 /\
    (~ s == 0 -> Inputs.short_term_growth inputs = Some (s / 100)) /\
    (s == 0 ->
     Inputs.short_term_growth inputs = None /\
     forall base_fcff,
       forecast_fcff base_fcff n (Inputs.short_term_growth inputs)
       = forecast_fcff base_fcff n (Some 0.05)).
Proof.
  intros Hticker Hr Hr0 He He0 Hn Hn1 Hg Hg0 Hy Hs Hs0.
  unfold get_user_inputs.
  erewrite run_bind_returned by apply run_print. cbn [Io.stdin Io.stdout].
  erewrite run_bind_returned by apply run_print. cbn [Io.stdin Io.stdout].
  erewrite run_bind_returned by apply run_print. cbn [Io.stdin Io.stdout].
  erewrite run_bind_returned by apply run_input. cbv zeta.
  destruct (String.eqb (str_upper b (str_strip b l1)) "") eqn:E.
  { apply String.eqb_eq in E. contradiction. }
  erewrite run_bind_returned by reflexivity.
  erewrite run_bind_returned by apply run_input.
  erewrite run_bind_returned by (apply run_validate_number; eassumption).
  erewrite run_bind_returned by apply run_input.
  erewrite run_bind_returned by (apply run_validate_number; eassumption).
  erewrite run_bind_returned by apply run_input.
  erewrite run_bind_returned by (apply run_validate_integer; eassumption).
  erewrite run_bind_returned by apply run_input.
  erewrite run_bind_returned by (apply run_validate_number; eassumption).
  erewrite run_bind_returned by apply run_input.
  rewrite Hy. cbn [String.eqb Ascii.eqb Bool.eqb].
  erewrite run_bind_returned;
    [|erewrite run_bind_returned by apply run_input;
      erewrite run_bind_returned by (apply run_validate_number; eassumption);
      reflexivity].
  do 2 eexists. split; [reflexivity|].
  cbn [Inputs.ticker Inputs.risk_free_rate Inputs.equity_risk_premium
       Inputs.forecast_years Inputs.perpetual_growth Inputs.short_term_growth].
  repeat (split; [reflexivity|]).
  split.
  - intros Hnz. apply Qeq_bool_false in Hnz. now rewrite Hnz.
  - intros Hz. apply Qeq_bool_iff in Hz. rewrite Hz. split; reflexivity.
Qed.

Lemma validators_spec_witness :
  Io.run (validate_positive_number sample_builtins "0" "Risk-Free Rate")
         (Io.World [] [])
  = (Io.Returned 0, Io.World [] []) /\
  Io.run (validate_positive_number sample_builtins "nan" "Risk-Free Rate")
         (Io.World [] [])
  = (Io.NotFinite, Io.World [] []) /\
  (exists message,
     Io.run (validate_positive_integer sample_builtins "0" "Forecast Period")
            (Io.World [] [])
     = (Io.Exited 1,
        Io.World []
          ([] ++ [(("Error: Invalid input for " ++ "Forecast Period" ++ ". "
                    ++ message) ++ Io.newline)%string]))) /\
  (exists message,
     Io.run (validate_positive_number sample_builtins "-1" "Risk-Free Rate")
            (Io.World [] [])
     = (Io.Exited 1,
        Io.World []
          ([] ++ [(("Error: Invalid input for " ++ "Risk-Free Rate" ++ ". "
                    ++ message) ++ Io.newline)%string]))).
Proof.
  split; [|split; [|split]].
  - apply (proj1 (validators_spec sample_builtins "0" "Risk-Free Rate"
                    (Io.World [] []))).
    split; [reflexivity|by_evaluation].
  - apply (proj1 (proj2 (validators_spec sample_builtins "nan" "Risk-Free Rate"
                           (Io.World [] [])))).
    left. reflexivity.
  - apply (proj2 (proj2 (proj2 (proj2
             (validators_spec sample_builtins "0" "Forecast Period"
                (Io.World [] [])))))).
    intros num [= <-]. lia.
  - apply (proj1 (proj2 (proj2 (proj2
             (validators_spec sample_builtins "-1" "Risk-Free Rate"
                (Io.World [] [])))))).
    right. right. exists (-1). split; [reflexivity|by_evaluation].
Defined.

Lemma get_user_inputs_returns_valid_witness :
  exists inputs w',
    Io.run (get_user_inputs sample_builtins)
           (Io.World ["MSFT"; "4.2"; "5.0"; "5"; "2.5"; "n"]%string [])
    = (Io.Returned inputs, w') /\
    Inputs.ticker inputs <> EmptyString /\
    0 <= Inputs.risk_free_rate inputs /\
    0 <= Inputs.equity_risk_premium inputs /\
    (1 <= Inputs.forecast_years inputs)%Z /\
    0 <= Inputs.perpetual_growth inputs /\
    (forall growth,
        Inputs.short_term_growth inputs = Some growth -> 0 < growth) /\
    exists consumed,
      ["MSFT"; "4.2"; "5.0"; "5"; "2.5"; "n"]%string
      = consumed ++ Io.stdin w' /\
      (length consumed = 6%nat \/ length consumed = 7%nat).
Proof.
  do 2 eexists. split; [vm_compute; reflexivity|].
  apply (get_user_inputs_returns_valid sample_builtins
           (Io.World ["MSFT"; "4.2"; "5.0"; "5"; "2.5"; "n"]%string [])).
  vm_compute. reflexivity.
Defined.

Lemma get_user_inputs_reads_witness :
  exists inputs out',
    Io.run (get_user_inputs sample_builtins)
           (Io.World ["MSFT"; "4.2"; "5.0"; "5"; "2.5"; "y"; "0"]%string [])
    = (Io.Returned inputs, Io.World [] out') /\
    Inputs.short_term_growth inputs = None /\
    forall base_fcff,
      forecast_fcff base_fcff 5 (Inputs.short_term_growth inputs)
      = forecast_fcff base_fcff 5 (Some 0.05).
Proof.
  destruct (get_user_inputs_reads sample_builtins
              "MSFT" "4.2" "5.0" "5" "2.5" "y" "0" [] [] 4.2 5.0 2.5 0 5)
    as (inputs & out' & Hrun & _ & _ & _ & _ & _ & _ & Hzero);
    try reflexivity; try by_evaluation; try discriminate; try lia.
  exists inputs, out'. split; [exact Hrun|]. apply Hzero. reflexivity.
Defined.

(** ** Console output *)


